(** * FunctionNode: the backend-independent function transpiler of gpu.js

    A shallow embedding of [src/backend/function-node.js] and the
    properties its specification states about it.

    Conventions of the embedding
    - a JavaScript object used as a dictionary is a [gmap string _];
    - a value that is a string, [null] or [undefined] is a [jsstr];
    - a method of the class is a computation in the monad [M]: it reads and
      writes the instance ([this]) and the arrays it was handed, and it
      either returns or throws.  What was written before a [throw] stays
      written, as in JavaScript;
    - an array that the code fills with [push] lives in a store and is
      named by its index there, so that two names of one array are one
      array. *)

From Stdlib Require Import QArith.
From stdpp Require Import gmap strings list fin_maps pretty.

Open Scope string_scope.
Open Scope list_scope.
Open Scope nat_scope.

(** ** Values *)

(** A string, [null] or [undefined]. *)
Inductive jsstr : Type :=
| JUndefined
| JNull
| JStr (s : string).

Global Instance jsstr_eq_dec : EqDecision jsstr.
Proof. solve_decision. Defined.

(** [!!x] for such a value: the empty string is falsy. *)
Definition truthy (x : jsstr) : bool :=
  match x with
  | JStr s => negb (bool_decide (s = EmptyString))
  | _ => false
  end.

(** The property key [obj[x]] uses. *)
Definition to_key (x : jsstr) : string :=
  match x with
  | JUndefined => "undefined"
  | JNull => "null"
  | JStr s => s
  end.

(** [typeof x === 'string'] *)
Definition is_string (x : jsstr) : bool :=
  match x with JStr _ => true | _ => false end.

(** [a || b] *)
Definition js_or (a b : jsstr) : jsstr := if truthy a then a else b.

(** The value of a literal.  Numbers are the finite ones (a rational
    stands for the double it denotes), the two infinities and NaN; string
    and regular-expression literals are not part of the numeric subset and
    are left out. *)
Inductive jsvalue : Type :=
| VNum (q : Q)
| VPosInf
| VNegInf
| VNaN
| VBool (b : bool)
| VNull.

(** [Number.isInteger(v)] *)
Definition Number_isInteger (v : jsvalue) : bool :=
  match v with
  | VNum q => (Z.rem (Qnum q) (Z.pos (Qden q)) =? 0)%Z
  | _ => false
  end.

(** [v > -Infinity && v < Infinity && !isNaN(v)] *)
Definition is_finite_number (v : jsvalue) : bool :=
  match v with
  | VNum _ | VBool _ | VNull => true
  | VPosInf | VNegInf | VNaN => false
  end.

(** ** The syntax tree *)

(** Induction on a tree reaches the trees inside its lists and options. *)
Scheme All for option.
Scheme All for list.

(** The node kinds of the ESTree format that [astGeneric] dispatches on,
    with the fields this file reads.  [start] is the offset the parser
    recorded for the node.  A kind the walker does not know is an
    [OtherNode]. *)
Inductive Ast : Type :=
| FunctionDeclaration (start : nat) (body : Ast)
| FunctionExpression (start : nat) (body : Ast)
| ReturnStatement (start : nat) (argument : option Ast)
| Literal (start : nat) (value : jsvalue)
| BinaryExpression (start : nat) (operator : string) (left right : Ast)
| Identifier (start : nat) (name : string)
| AssignmentExpression (start : nat) (operator : string) (left right : Ast)
| ExpressionStatement (start : nat) (expression : Ast)
| EmptyStatement (start : nat)
| BlockStatement (start : nat) (body : list Ast)
| IfStatement (start : nat) (test consequent : Ast) (alternate : option Ast)
| BreakStatement (start : nat)
| ContinueStatement (start : nat)
| ForStatement (start : nat) (init test update : option Ast) (body : Ast)
| WhileStatement (start : nat) (test body : Ast)
| DoWhileStatement (start : nat) (body test : Ast)
| VariableDeclaration (start : nat) (declarations : list Ast)
| VariableDeclarator (start : nat) (id : Ast) (init : option Ast)
| ThisExpression (start : nat)
| SequenceExpression (start : nat) (expressions : list Ast)
| UnaryExpression (start : nat) (operator : string) (prefix : bool) (argument : Ast)
| UpdateExpression (start : nat) (operator : string) (prefix : bool) (argument : Ast)
| LogicalExpression (start : nat) (operator : string) (left right : Ast)
| MemberExpression (start : nat) (object property : Ast) (computed : bool)
| CallExpression (start : nat) (callee : Ast) (arguments : list Ast)
| ArrayExpression (start : nat) (elements : list Ast)
| DebuggerStatement (start : nat)
| ConditionalExpression (start : nat) (test consequent alternate : Ast)
| OtherNode (start : nat) (type : string).

(** [ast.type] *)
Definition ast_type (ast : Ast) : string :=
  match ast with
  | FunctionDeclaration _ _ => "FunctionDeclaration"
  | FunctionExpression _ _ => "FunctionExpression"
  | ReturnStatement _ _ => "ReturnStatement"
  | Literal _ _ => "Literal"
  | BinaryExpression _ _ _ _ => "BinaryExpression"
  | Identifier _ _ => "Identifier"
  | AssignmentExpression _ _ _ _ => "AssignmentExpression"
  | ExpressionStatement _ _ => "ExpressionStatement"
  | EmptyStatement _ => "EmptyStatement"
  | BlockStatement _ _ => "BlockStatement"
  | IfStatement _ _ _ _ => "IfStatement"
  | BreakStatement _ => "BreakStatement"
  | ContinueStatement _ => "ContinueStatement"
  | ForStatement _ _ _ _ _ => "ForStatement"
  | WhileStatement _ _ _ => "WhileStatement"
  | DoWhileStatement _ _ _ => "DoWhileStatement"
  | VariableDeclaration _ _ => "VariableDeclaration"
  | VariableDeclarator _ _ _ => "VariableDeclarator"
  | ThisExpression _ => "ThisExpression"
  | SequenceExpression _ _ => "SequenceExpression"
  | UnaryExpression _ _ _ _ => "UnaryExpression"
  | UpdateExpression _ _ _ _ => "UpdateExpression"
  | LogicalExpression _ _ _ _ => "LogicalExpression"
  | MemberExpression _ _ _ _ => "MemberExpression"
  | CallExpression _ _ _ => "CallExpression"
  | ArrayExpression _ _ => "ArrayExpression"
  | DebuggerStatement _ => "DebuggerStatement"
  | ConditionalExpression _ _ _ _ => "ConditionalExpression"
  | OtherNode _ t => t
  end.

(** [ast.start] *)
Definition ast_start (ast : Ast) : nat :=
  match ast with
  | FunctionDeclaration s _ | FunctionExpression s _ | ReturnStatement s _
  | Literal s _ | BinaryExpression s _ _ _ | Identifier s _
  | AssignmentExpression s _ _ _ | ExpressionStatement s _ | EmptyStatement s
  | BlockStatement s _ | IfStatement s _ _ _ | BreakStatement s
  | ContinueStatement s | ForStatement s _ _ _ _ | WhileStatement s _ _
  | DoWhileStatement s _ _ | VariableDeclaration s _ | VariableDeclarator s _ _
  | ThisExpression s | SequenceExpression s _ | UnaryExpression s _ _ _
  | UpdateExpression s _ _ _ | LogicalExpression s _ _ _
  | MemberExpression s _ _ _ | CallExpression s _ _ | ArrayExpression s _
  | DebuggerStatement s | ConditionalExpression s _ _ _ | OtherNode s _ => s
  end.

(** Field reads [ast.name], [ast.object], ...: [undefined] (here [JUndefined]
    or [None]) on a node that has no such field. *)
Definition ast_name (ast : Ast) : jsstr :=
  match ast with Identifier _ n => JStr n | _ => JUndefined end.

Definition ast_object (ast : Ast) : option Ast :=
  match ast with MemberExpression _ o _ _ => Some o | _ => None end.

Definition ast_property (ast : Ast) : option Ast :=
  match ast with MemberExpression _ _ p _ => Some p | _ => None end.

Definition ast_computed (ast : Ast) : bool :=
  match ast with MemberExpression _ _ _ c => c | _ => false end.

Definition ast_callee (ast : Ast) : option Ast :=
  match ast with CallExpression _ c _ => Some c | _ => None end.

Definition ast_init (ast : Ast) : option Ast :=
  match ast with
  | VariableDeclarator _ _ i => i
  | ForStatement _ i _ _ _ => i
  | _ => None
  end.

Definition ast_id (ast : Ast) : option Ast :=
  match ast with VariableDeclarator _ i _ => Some i | _ => None end.

(** [x.name] where [x] may be [undefined]: the name when there is one. *)
Definition opt_name (x : option Ast) : jsstr :=
  match x with Some a => ast_name a | None => JUndefined end.


(** ** The instance *)

(** What [getDependencies] collects. *)
Record Dependency : Type := {
  dep_origin : string;
  dep_name : jsstr;
  dep_value : option jsvalue;
  dep_isSafe : bool
}.

(** What [getDependencies] can hand back, and so what a declaration stores
    as its [dependencies]: the array, [null], or (for a member expression)
    the [type] field of the descriptor. *)
Inductive DepsValue : Type :=
| DepsArray (l : list Dependency)
| DepsNull
| DepsType (t : jsstr).

(** An entry of [this.declarations]. *)
Record Declaration : Type := {
  decl_type : jsstr;
  decl_dependencies : DepsValue;
  decl_isSafe : bool
}.

(** One argument of one call, as the parent recorded it. *)
Record ArgumentBinding : Type := {
  arg_type : jsstr;
  arg_name : jsstr
}.

(** The part of [this.parent] this file reads. *)
Record ParentNode : Type := {
  parent_calledFunctionsArguments : gmap string (list (list (option ArgumentBinding)))
}.

(** The first parameter of the constructor. *)
Inductive Source : Type :=
| SourceMissing
| SourceString (s : string)
| SourceObject (ast : Ast).

(** The fields the constructor sets before it calls [validate].  (The two
    it sets afterwards, [_string] and [_internalVariableNames], and the
    [ast] that [getJsAST] caches belong to methods that are not embedded
    here.)  [onNestedFunction] tells whether a callback is registered; its
    calls are recorded in the world. *)
Record FunctionNode : Type := {
  source : Source;
  name : jsstr;
  calledFunctions : list string;
  calledFunctionsArguments : gmap string (list (list (option ArgumentBinding)));
  constants : gmap string jsvalue;
  constantTypes : gmap string string;
  isRootKernel : bool;
  isSubKernel : bool;
  parent : option ParentNode;
  debug : option bool;
  declarations : gmap string Declaration;
  states : list string;
  lookupReturnType : option (string -> jsstr);
  onNestedFunction : bool;
  loopMaxIterations : option nat;
  argumentNames : list string;
  argumentTypes : list jsstr;
  argumentSizes : list (list nat);
  returnType : jsstr;
  output : list nat;
  plugins : option (list string)
}.

(** Field updates. *)
Definition set_states (v : list string) (f : FunctionNode) : FunctionNode :=
  {| source := source f; name := name f; calledFunctions := calledFunctions f;
     calledFunctionsArguments := calledFunctionsArguments f;
     constants := constants f; constantTypes := constantTypes f;
     isRootKernel := isRootKernel f; isSubKernel := isSubKernel f;
     parent := parent f; debug := debug f; declarations := declarations f;
     states := v; lookupReturnType := lookupReturnType f;
     onNestedFunction := onNestedFunction f;
     loopMaxIterations := loopMaxIterations f;
     argumentNames := argumentNames f; argumentTypes := argumentTypes f;
     argumentSizes := argumentSizes f; returnType := returnType f;
     output := output f; plugins := plugins f |}.

Definition set_declarations (v : gmap string Declaration) (f : FunctionNode) : FunctionNode :=
  {| source := source f; name := name f; calledFunctions := calledFunctions f;
     calledFunctionsArguments := calledFunctionsArguments f;
     constants := constants f; constantTypes := constantTypes f;
     isRootKernel := isRootKernel f; isSubKernel := isSubKernel f;
     parent := parent f; debug := debug f; declarations := v;
     states := states f; lookupReturnType := lookupReturnType f;
     onNestedFunction := onNestedFunction f;
     loopMaxIterations := loopMaxIterations f;
     argumentNames := argumentNames f; argumentTypes := argumentTypes f;
     argumentSizes := argumentSizes f; returnType := returnType f;
     output := output f; plugins := plugins f |}.

Definition set_argumentTypes (v : list jsstr) (f : FunctionNode) : FunctionNode :=
  {| source := source f; name := name f; calledFunctions := calledFunctions f;
     calledFunctionsArguments := calledFunctionsArguments f;
     constants := constants f; constantTypes := constantTypes f;
     isRootKernel := isRootKernel f; isSubKernel := isSubKernel f;
     parent := parent f; debug := debug f; declarations := declarations f;
     states := states f; lookupReturnType := lookupReturnType f;
     onNestedFunction := onNestedFunction f;
     loopMaxIterations := loopMaxIterations f;
     argumentNames := argumentNames f; argumentTypes := v;
     argumentSizes := argumentSizes f; returnType := returnType f;
     output := output f; plugins := plugins f |}.

(** ** Arrays of emitted text

    An element of an output array is a string or the array itself (the
    only reference to an array that the code ever pushes is the one in
    [retArr.push(retArr, ...)]). *)
Inductive Fragment : Type :=
| FStr (s : string)
| FSelf.

Global Instance Fragment_eq_dec : EqDecision Fragment.
Proof. solve_decision. Defined.

(** What an element contributes to [join]: an array that meets itself
    while it is joined contributes the empty string. *)
Definition fragment_text (x : Fragment) : string :=
  match x with FStr s => s | FSelf => EmptyString end.

Definition join (sep : string) (l : list Fragment) : string :=
  String.concat sep (map fragment_text l).

(** A text between double quotes. *)
Definition quoted (s : string) : string :=
  String (Ascii.ascii_of_nat 34) (s +:+ String (Ascii.ascii_of_nat 34) EmptyString).

(** The line feed. *)
Definition LF : Ascii.ascii := Ascii.ascii_of_nat 10.

(** ** What is thrown *)
Inductive exn : Type :=
| Error (message : string)
| AstError (error : string) (line position : nat) (debugString : string)
| TypeError (message : string).

(** The text of [new Error(`${error} on line ${line}, position ${position}:\n ${debugString}`)]. *)
Definition exn_message (e : exn) : string :=
  match e with
  | Error m | TypeError m => m
  | AstError error line position debugString =>
      error +:+ " on line " +:+ pretty line +:+ ", position " +:+ pretty position
      +:+ ":" +:+ String LF " " +:+ debugString
  end.

(** ** The monad of methods *)
Record World : Type := {
  this : FunctionNode;
  arrays : list (list Fragment);
  hookCalls : list (string * jsstr)
}.

Inductive Res (A : Type) : Type :=
| Ok (a : A)
| Throw (e : exn).
Arguments Ok {A} a.
Arguments Throw {A} e.

Definition M (A : Type) : Type := World -> Res A * World.

Definition ret {A} (a : A) : M A := fun w => (Ok a, w).

Definition bind {A B} (m : M A) (k : A -> M B) : M B :=
  fun w => match m w with
           | (Ok a, w') => k a w'
           | (Throw e, w') => (Throw e, w')
           end.

Definition throw {A} (e : exn) : M A := fun w => (Throw e, w).

Declare Scope js_scope.
Delimit Scope js_scope with js.
Notation "x <- c1 ;; c2" := (bind c1 (fun x => c2))
  (at level 100, c1 at next level, c2 at level 200, right associativity) : js_scope.
Notation "c1 ;; c2" := (bind c1 (fun _ => c2))
  (at level 100, c2 at level 200, right associativity) : js_scope.
Open Scope js_scope.

Definition get_this : M FunctionNode := fun w => (Ok (this w), w).

Definition modify_this (f : FunctionNode -> FunctionNode) : M unit :=
  fun w => (Ok tt, {| this := f (this w); arrays := arrays w; hookCalls := hookCalls w |}).

(** [[...init]]: a new array. *)
Definition new_array (init : list Fragment) : M nat :=
  fun w => (Ok (length (arrays w)),
            {| this := this w; arrays := arrays w ++ [init]; hookCalls := hookCalls w |}).

(** [arr.push(...xs)] *)
Definition push (arr : nat) (xs : list Fragment) : M unit :=
  fun w => (Ok tt, {| this := this w;
                      arrays := alter (fun l => l ++ xs) arr (arrays w);
                      hookCalls := hookCalls w |}).

(** [arr.join(sep)] *)
Definition join_array (sep : string) (arr : nat) : M string :=
  fun w => (Ok (join sep (default [] (arrays w !! arr))), w).

(** A call of the [onNestedFunction] callback. *)
Definition call_hook (text : string) (returnType : jsstr) : M unit :=
  fun w => (Ok tt, {| this := this w; arrays := arrays w;
                      hookCalls := hookCalls w ++ [(text, returnType)] |}).

(** [o.f] where [o] may be [undefined]. *)
Definition field {A} (what : string) (o : option A) : M A :=
  match o with
  | Some a => ret a
  | None => throw (TypeError ("Cannot read properties of undefined (reading '" +:+ what +:+ "')"))
  end.

(** [arr[i] = v]: an assignment past the end leaves holes, which read as
    [undefined]. *)
Definition array_set (i : nat) (v : jsstr) (l : list jsstr) : list jsstr :=
  if decide (i < length l) then <[i := v]> l
  else l ++ replicate (i - length l) JUndefined ++ [v].

(** [arr.indexOf(x)]: strict equality, so only a string is found in an
    array of strings; [None] is [-1]. *)
Fixpoint index_from (n : nat) (s : string) (l : list string) : option nat :=
  match l with
  | [] => None
  | x :: l' => if bool_decide (x = s) then Some n else index_from (S n) s l'
  end.

Definition indexOf (l : list string) (x : jsstr) : option nat :=
  match x with
  | JStr s => index_from 0 s l
  | _ => None
  end.

(** [s.substr(n)] *)
Fixpoint substr (s : string) (n : nat) : string :=
  match n, s with
  | 0, _ => s
  | S n', String _ s' => substr s' n'
  | S _, EmptyString => EmptyString
  end.

(** [s.split(/\n/)] *)
Fixpoint split_lines (s : string) : list string :=
  match s with
  | EmptyString => [EmptyString]
  | String c s' =>
      if Ascii.eqb c LF then EmptyString :: split_lines s'
      else match split_lines s' with
           | l :: ls => String c l :: ls
           | [] => [String c EmptyString]
           end
  end.

(** The table at the end of the file. *)
Definition typeLookupMap : gmap string string :=
  list_to_map
    [ ("Array", "Number");
      ("Array(2)", "Number");
      ("Array(3)", "Number");
      ("Array(4)", "Number");
      ("Array2D", "Number");
      ("Array3D", "Number");
      ("HTMLImage", "Array(4)");
      ("HTMLImageArray", "Array(4)");
      ("NumberTexture", "Number");
      ("ArrayTexture(4)", "Array(4)") ].

(** [table[x]] for a table of strings. *)
Definition table_get (table : gmap string string) (x : jsstr) : jsstr :=
  match table !! to_key x with
  | Some t => JStr t
  | None => JUndefined
  end.

(** ** What the file takes from outside

    [utils] is another module of the repository and [typeMap] is a free
    variable of [astVariableDeclaration] that a backend supplies; they are
    parameters of everything below. *)
Record Externals : Type := {
  utils_getFunctionNameFromString : string -> jsstr;
  utils_getArgumentNamesFromString : string -> list string;
  utils_isFunctionString : string -> bool;
  utils_getAstString : Source -> Ast -> string;
  typeMap : gmap string string
}.

Section FunctionNode.

Variable ext : Externals.

(** *** The traversal-state stack *)

(** [get state()] : [undefined] on an empty stack. *)
Definition state (f : FunctionNode) : option string := last (states f).

Definition pushState (st : string) : M unit :=
  modify_this (fun f => set_states (states f ++ [st]) f).

Definition popState (st : string) : M unit :=
  f <- get_this ;;
  if bool_decide (state f = Some st)
  then modify_this (fun f => set_states (removelast (states f)) f)
  else throw (Error ("Cannot popState " +:+ st +:+ " when in "
                     +:+ default "undefined" (state f))).

Definition isState (st : string) (f : FunctionNode) : bool :=
  bool_decide (state f = Some st).

(** *** The error reporter *)

(** [astErrorOutput(error, ast)] builds the [Error] that its callers
    throw.  [splitLines] always has an element, so the [0] of the source's
    conditional is never taken. *)
Definition astErrorOutput (error : string) (ast : Ast) (f : FunctionNode) : exn :=
  match source f with
  | SourceString src =>
      let debugString := utils_getAstString ext (source f) ast in
      let leadingSource := substr src (ast_start ast) in
      let splitLines := split_lines leadingSource in
      let lineBefore := default EmptyString (last splitLines) in
      AstError error (length splitLines) (String.length lineBefore) debugString
  | _ => Error error
  end.

(** [throw this.astErrorOutput(error, ast)] *)
Definition throw_ast {A} (error : string) (ast : Ast) : M A :=
  f <- get_this ;; throw (astErrorOutput error ast f).

(** *** Recognizers *)

Definition mathProperties : list string :=
  ["E"; "PI"; "SQRT2"; "SQRT1_2"; "LN2"; "LN10"; "LOG2E"; "LOG10E"].

Definition isAstMathVariable (ast : Ast) : bool :=
  match ast with
  | MemberExpression _ (Identifier _ o) (Identifier _ p) _ =>
      bool_decide (o = "Math") && bool_decide (p ∈ mathProperties)
  | _ => false
  end.

Definition mathFunctions : list string :=
  ["abs"; "acos"; "asin"; "atan"; "atan2"; "ceil"; "cos"; "exp"; "floor";
   "log"; "log2"; "max"; "min"; "pow"; "random"; "round"; "sign"; "sin";
   "sqrt"; "tan"].

Definition isAstMathFunction (ast : Ast) : bool :=
  match ast with
  | CallExpression _ (MemberExpression _ (Identifier _ o) (Identifier _ p) _) _ =>
      bool_decide (o = "Math") && bool_decide (p ∈ mathFunctions)
  | _ => false
  end.

Definition isAstVariable (ast : Ast) : bool :=
  match ast with
  | Identifier _ _ | MemberExpression _ _ _ _ => true
  | _ => false
  end.

(** *** The signature recognizer *)

(** What one turn of the [while] loop of [getVariableSignature] adds to
    [signature] for the node [ast]: [push] adds at the end, [unshift] at
    the front. *)
Definition signature_step (ast : Ast) (signature : list string) : list string :=
  if ast_computed ast then signature ++ ["[]"]
  else if bool_decide (ast_type ast = "ThisExpression") then "this" :: signature
  else if truthy (opt_name (ast_property ast)) then
    let n := to_key (opt_name (ast_property ast)) in
    if bool_decide (n = "x") || bool_decide (n = "y") || bool_decide (n = "z")
    then ".value" :: signature
    else if bool_decide (n = "constants") || bool_decide (n = "thread")
            || bool_decide (n = "output")
    then ("." +:+ n) :: signature
    else ".value" :: signature
  else if truthy (ast_name ast) then "value" :: signature
  else if truthy (opt_name (ast_callee ast)) then "fn()" :: signature
  else "unknown" :: signature.

(** The loop: [ast = ast.object] until there is no object. *)
Fixpoint signature_loop (ast : Ast) (signature : list string) : list string :=
  match ast with
  | MemberExpression _ o _ _ => signature_loop o (signature_step ast signature)
  | _ => signature_step ast signature
  end.

Definition allowedExpressions : list string :=
  [ "value"; "value[]"; "value[][]"; "value[][][]"; "value.value";
    "this.thread.value"; "this.output.value"; "this.constants.value";
    "this.constants.value[]"; "this.constants.value[][]";
    "this.constants.value[][][]"; "fn()[]"; "fn()[][]"; "fn()[][][]" ].

Definition getVariableSignature (ast : Ast) : M jsstr :=
  if negb (isAstVariable ast)
  then throw (Error ("ast of type " +:+ quoted (ast_type ast)
                     +:+ " is not a variable signature"))
  else if bool_decide (ast_type ast = "Identifier") then ret (JStr "value")
  else
    let signatureString := String.concat EmptyString (signature_loop ast []) in
    if bool_decide (signatureString ∈ allowedExpressions)
    then ret (JStr signatureString)
    else ret JNull.

(** *** Types of variables and constants *)

(** The [for] loop of [getVariableType] over the calls the parent
    recorded: the first binding that is not [null] gives the type. *)
Fixpoint first_binding (argumentIndex : nat)
    (calledFunctionArguments : list (list (option ArgumentBinding))) : M (option jsstr) :=
  match calledFunctionArguments with
  | [] => ret None
  | calledFunctionArgument :: rest =>
      b <- field "type" (calledFunctionArgument !! argumentIndex) ;;
      match b with
      | Some binding => ret (Some (arg_type binding))
      | None => first_binding argumentIndex rest
      end
  end.

Definition getVariableType (name' : jsstr) : M jsstr :=
  f <- get_this ;;
  match indexOf (argumentNames f) name' with
  | None =>
      match declarations f !! to_key name' with
      | Some d => ret (decl_type d)
      | None => ret JNull
      end
  | Some argumentIndex =>
      let argumentType := default JUndefined (argumentTypes f !! argumentIndex) in
      if truthy argumentType then ret argumentType
      else match parent f with
           | Some p =>
               calledFunctionArguments <-
                 field "length" (parent_calledFunctionsArguments p !! to_key (name f)) ;;
               found <- first_binding argumentIndex calledFunctionArguments ;;
               match found with
               | Some type =>
                   modify_this (fun f => set_argumentTypes
                                           (array_set argumentIndex type (argumentTypes f)) f) ;;
                   ret type
               | None => ret JNull
               end
           | None => ret JNull
           end
  end.

(** [getConstantType(constantName)].  [constantTypes] holds the types
    that have been registered.  The plain object of the code answers for
    the names of the members of [Object.prototype] as well ([constructor],
    [toString], ...); those names are outside what the dictionary
    models. *)
Definition getConstantType (constantName : jsstr) (f : FunctionNode) : jsstr :=
  match constantTypes f !! to_key constantName with
  | Some type =>
      if truthy (JStr type)
      then if bool_decide (type = "Float") then JStr "Number" else JStr type
      else JNull
  | None => JNull
  end.

(** *** The member-expression decomposer *)

(** The [property] of a descriptor is a name or a node. *)
Inductive PropertyValue : Type :=
| PropertyName (s : jsstr)
| PropertyNode (ast : Ast).

(** What [getMemberExpressionDetails] returns; a field the object literal
    does not set is [JUndefined] or [None]. *)
Record Details : Type := {
  details_name : jsstr;
  details_origin : jsstr;
  details_signature : jsstr;
  details_type : jsstr;
  details_property : option PropertyValue;
  details_xProperty : option Ast;
  details_yProperty : option Ast;
  details_zProperty : option Ast
}.

(** [ast.object], [ast.object.object], ... and the [property] of the
    result, as the code reads them: a [TypeError] where a step is
    [undefined]. *)
Definition object_of (ast : Ast) : M Ast := field "object" (ast_object ast).
Definition property_of (ast : Ast) : M Ast := field "property" (ast_property ast).

(** The descriptor of a constant: [name] is the property that names it. *)
Definition constant_details (ast : Ast) (variableSignature : jsstr) (named : Ast)
    (x y z : option Ast) : M (option Details) :=
  let name' := ast_name named in
  if negb (is_string name') then throw_ast "Unexpected expression" ast
  else
    f <- get_this ;;
    let type := getConstantType name' f in
    if negb (truthy type) then throw_ast "Constant has no type" ast
    else ret (Some {| details_name := name'; details_origin := JStr "constants";
                      details_signature := variableSignature; details_type := type;
                      details_property := None; details_xProperty := x;
                      details_yProperty := y; details_zProperty := z |}).

(** The descriptor of an indexed user variable. *)
Definition user_details (ast : Ast) (variableSignature : jsstr) (named : Ast)
    (x y z : option Ast) : M (option Details) :=
  let name' := ast_name named in
  if negb (is_string name') then throw_ast "Unexpected expression" ast
  else
    type <- getVariableType name' ;;
    ret (Some {| details_name := name'; details_origin := JStr "user";
                 details_signature := variableSignature; details_type := type;
                 details_property := None; details_xProperty := x;
                 details_yProperty := y; details_zProperty := z |}).

Definition getMemberExpressionDetails (ast : Ast) : M (option Details) :=
  if negb (bool_decide (ast_type ast = "MemberExpression"))
  then throw_ast ("Expression " +:+ ast_type ast +:+ " not a MemberExpression") ast
  else
    variableSignature <- getVariableSignature ast ;;
    let is_case := fun s => bool_decide (variableSignature = JStr s) in
    if is_case "value" then ret None
    else if is_case "this.thread.value" || is_case "this.output.value" then
        p <- property_of ast ;;
        ret (Some {| details_name := ast_name p; details_origin := JUndefined;
                     details_signature := variableSignature;
                     details_type := JStr "Integer";
                     details_property := None; details_xProperty := None;
                     details_yProperty := None; details_zProperty := None |})
    else if is_case "value[]" then
        o <- object_of ast ;;
        user_details ast variableSignature o (ast_property ast) None None
    else if is_case "value[][]" then
        o <- object_of ast ;; oo <- object_of o ;;
        user_details ast variableSignature oo (ast_property ast) (ast_property o) None
    else if is_case "value[][][]" then
        o <- object_of ast ;; oo <- object_of o ;; ooo <- object_of oo ;;
        user_details ast variableSignature ooo
          (ast_property ast) (ast_property o) (ast_property oo)
    else if is_case "value.value" then
        p <- property_of ast ;;
        if negb (is_string (ast_name p)) then throw_ast "Unexpected expression" ast
        else if isAstMathVariable ast then
          ret (Some {| details_name := ast_name p; details_origin := JStr "Math";
                       details_signature := variableSignature;
                       details_type := JStr "Number";
                       details_property := None; details_xProperty := None;
                       details_yProperty := None; details_zProperty := None |})
        else if bool_decide (to_key (ast_name p) ∈ ["r"; "g"; "b"; "a"]) then
          o <- object_of ast ;;
          ret (Some {| details_name := ast_name o; details_origin := JStr "user";
                       details_signature := variableSignature;
                       details_type := JStr "Number";
                       details_property := Some (PropertyName (ast_name p));
                       details_xProperty := None;
                       details_yProperty := None; details_zProperty := None |})
        else throw_ast "Unexpected expression" ast
    else if is_case "this.constants.value" then
        p <- property_of ast ;;
        constant_details ast variableSignature p None None None
    else if is_case "this.constants.value[]" then
        o <- object_of ast ;; p <- property_of o ;;
        constant_details ast variableSignature p (ast_property ast) None None
    else if is_case "this.constants.value[][]" then
        o <- object_of ast ;; oo <- object_of o ;; p <- property_of oo ;;
        constant_details ast variableSignature p
          (ast_property ast) (ast_property o) None
    else if is_case "this.constants.value[][][]" then
        o <- object_of ast ;; oo <- object_of o ;; ooo <- object_of oo ;;
        p <- property_of ooo ;;
        constant_details ast variableSignature p
          (ast_property ast) (ast_property o) (ast_property oo)
    else if is_case "fn()[]" then
        ret (Some {| details_name := JUndefined; details_origin := JUndefined;
                     details_signature := variableSignature;
                     details_type := JUndefined;
                     details_property := PropertyNode <$> ast_property ast;
                     details_xProperty := None;
                     details_yProperty := None; details_zProperty := None |})
    else throw_ast "Unexpected expression" ast.

(** *** The type oracle *)

(** [x.type] where [x] is [null] or [undefined]. *)
Definition no_type {A} : M A :=
  throw (TypeError "Cannot read properties of undefined (reading 'type')").

Fixpoint getType (ast : Ast) : M jsstr :=
  (* [Array.isArray(ast)]: the type of the last element *)
  let getType_array :=
    fix last_type (l : list Ast) : M jsstr :=
      match l with
      | [] => no_type
      | a :: l' => match l' with [] => getType a | _ :: _ => last_type l' end
      end in
  match ast with
  | BlockStatement _ body => getType_array body
  | ArrayExpression _ elements =>
      ret (JStr ("Array(" +:+ pretty (length elements) +:+ ")"))
  | Literal _ value =>
      if Number_isInteger value then ret (JStr "LiteralInteger")
      else ret (JStr "Number")
  | CallExpression _ callee _ =>
      if isAstMathFunction ast then ret (JStr "Number")
      else
        f <- get_this ;;
        match lookupReturnType f with
        | Some lookup =>
            if truthy (ast_name callee) then ret (lookup (to_key (ast_name callee)))
            else ret JNull
        | None => ret JNull
        end
  | BinaryExpression _ operator left' _ =>
      if bool_decide (operator = "%") then ret (JStr "Number")
      else if bool_decide (operator = ">") || bool_decide (operator = "<")
      then ret (JStr "Boolean")
      else
        type <- getType left' ;;
        ret (js_or (table_get typeLookupMap type) type)
  | UpdateExpression _ _ _ argument => getType argument
  | UnaryExpression _ _ _ argument => getType argument
  | VariableDeclaration _ declarations =>
      match declarations with
      | d :: _ => getType d
      | [] => no_type
      end
  | VariableDeclarator _ id _ => getType id
  | Identifier _ name' =>
      let infinity :=
        if bool_decide (name' = "Infinity") then ret (JStr "Integer") else ret JNull in
      if isAstVariable ast then
        signature <- getVariableSignature ast ;;
        if bool_decide (signature = JStr "value") then
          f <- get_this ;;
          if bool_decide (is_Some (indexOf (argumentNames f) (JStr name')))
          then getVariableType (JStr name')
          else match declarations f !! name' with
               | Some d => ret (decl_type d)
               | None => infinity
               end
        else infinity
      else infinity
  | ReturnStatement _ argument =>
      match argument with
      | Some a => getType a
      | None => no_type
      end
  | MemberExpression _ object _ _ =>
      if isAstMathFunction ast then
        p <- property_of ast ;;
        if bool_decide (to_key (ast_name p) ∈ ["ceil"; "floor"; "round"])
        then ret (JStr "Integer")
        else ret (JStr "Number")
      else if isAstVariable ast then
        variableSignature <- getVariableSignature ast ;;
        let is_case := fun s => bool_decide (variableSignature = JStr s) in
        let unhandled := throw_ast "Unhandled getType MemberExpression" ast in
        if is_case "value[]" then
          o <- object_of ast ;;
          t <- getVariableType (ast_name o) ;; ret (table_get typeLookupMap t)
        else if is_case "value[][]" then
          o <- object_of ast ;; oo <- object_of o ;;
          t <- getVariableType (ast_name oo) ;; ret (table_get typeLookupMap t)
        else if is_case "value[][][]" then
          o <- object_of ast ;; oo <- object_of o ;; ooo <- object_of oo ;;
          t <- getVariableType (ast_name ooo) ;; ret (table_get typeLookupMap t)
        else if is_case "this.thread.value" then ret (JStr "Integer")
        else if is_case "this.output.value" then ret (JStr "Integer")
        else if is_case "this.constants.value" then
          p <- property_of ast ;;
          f <- get_this ;; ret (getConstantType (ast_name p) f)
        else if is_case "this.constants.value[]" then
          o <- object_of ast ;; p <- property_of o ;;
          f <- get_this ;; ret (table_get typeLookupMap (getConstantType (ast_name p) f))
        else if is_case "this.constants.value[][]" then
          o <- object_of ast ;; oo <- object_of o ;; p <- property_of oo ;;
          f <- get_this ;; ret (table_get typeLookupMap (getConstantType (ast_name p) f))
        else if is_case "this.constants.value[][][]" then
          o <- object_of ast ;; oo <- object_of o ;; ooo <- object_of oo ;;
          p <- property_of ooo ;;
          f <- get_this ;; ret (table_get typeLookupMap (getConstantType (ast_name p) f))
        else if is_case "fn()[]" || is_case "fn()[][]" || is_case "fn()[][][]" then
          t <- getType object ;; ret (table_get typeLookupMap t)
        else if is_case "value.value" then
          if isAstMathVariable ast then ret (JStr "Number")
          else
            p <- property_of ast ;;
            if bool_decide (to_key (ast_name p) ∈ ["r"; "g"; "b"; "a"]) then
              o <- object_of ast ;;
              t <- getVariableType (ast_name o) ;; ret (table_get typeLookupMap t)
            else unhandled
        else unhandled
      else throw_ast "Unhandled getType MemberExpression" ast
  | FunctionDeclaration _ body => getType body
  | ConditionalExpression _ _ consequent _ => getType consequent
  | _ => throw_ast ("Unhandled getType Type " +:+ quoted (ast_type ast)) ast
  end.

(** *** The dependency and safety analyzer *)

Definition isSafeDependencies (dependencies : DepsValue) : bool :=
  match dependencies with
  | DepsArray l => forallb dep_isSafe l
  | _ => true
  end.

(** [getDependencies(ast, dependencies, isNotSafe)].  The array
    [dependencies] is filled in place and is what most cases return, so the
    result is the returned value together with the array as the call left
    it.  An [isNotSafe] that is [undefined] acts as [false]; a first call
    passes no array and starts from the empty one. *)
Fixpoint getDependencies (ast : Ast) (dependencies : list Dependency) (isNotSafe : bool)
    : M (DepsValue * list Dependency) :=
  (* [if (!ast) return null] *)
  let getDependencies_opt (o : option Ast) (deps : list Dependency) (flag : bool) :=
    match o with
    | Some a => getDependencies a deps flag
    | None => ret (DepsNull, deps)
    end in
  (* [Array.isArray(ast)] *)
  let getDependencies_array :=
    fix each (l : list Ast) (deps : list Dependency) : M (DepsValue * list Dependency) :=
      match l with
      | [] => ret (DepsArray deps, deps)
      | a :: l' => r <- getDependencies a deps isNotSafe ;; each l' (snd r)
      end in
  match ast with
  | Literal _ value =>
      let deps := dependencies ++
        [{| dep_origin := "literal"; dep_name := JUndefined; dep_value := Some value;
            dep_isSafe := if isNotSafe then false else is_finite_number value |}] in
      ret (DepsArray deps, deps)
  | VariableDeclarator _ _ init => getDependencies_opt init dependencies isNotSafe
  | Identifier _ name' =>
      f <- get_this ;;
      match declarations f !! name' with
      | Some d =>
          let deps := dependencies ++
            [{| dep_origin := "declaration"; dep_name := JStr name'; dep_value := None;
                dep_isSafe := if isNotSafe then false
                              else isSafeDependencies (decl_dependencies d) |}] in
          ret (DepsArray deps, deps)
      | None =>
          if bool_decide (is_Some (indexOf (argumentNames f) (JStr name'))) then
            let deps := dependencies ++
              [{| dep_origin := "argument"; dep_name := JStr name'; dep_value := None;
                  dep_isSafe := false |}] in
            ret (DepsArray deps, deps)
          else ret (DepsArray dependencies, dependencies)
      end
  | FunctionDeclaration _ body =>
      match body with
      | BlockStatement _ statements =>
          (fix last_statement (l : list Ast) : M (DepsValue * list Dependency) :=
             match l with
             | [] => ret (DepsNull, dependencies)
             | a :: l' =>
                 match l' with
                 | [] => getDependencies a dependencies isNotSafe
                 | _ :: _ => last_statement l'
                 end
             end) statements
      | _ => throw (TypeError "Cannot read properties of undefined (reading 'length')")
      end
  | ReturnStatement _ argument => getDependencies_opt argument dependencies false
  | BinaryExpression _ operator left' right' =>
      let isNotSafe := bool_decide (operator = "/") || bool_decide (operator = "*") in
      l <- getDependencies left' dependencies isNotSafe ;;
      r <- getDependencies right' (snd l) isNotSafe ;;
      ret (DepsArray (snd r), snd r)
  | UpdateExpression _ _ _ argument => getDependencies argument dependencies isNotSafe
  | VariableDeclaration _ declarations' => getDependencies_array declarations' dependencies
  | ArrayExpression _ _ =>
      let deps := dependencies ++
        [{| dep_origin := "declaration"; dep_name := JUndefined; dep_value := None;
            dep_isSafe := true |}] in
      ret (DepsArray deps, deps)
  | CallExpression _ _ _ =>
      let deps := dependencies ++
        [{| dep_origin := "function"; dep_name := JUndefined; dep_value := None;
            dep_isSafe := true |}] in
      ret (DepsArray deps, deps)
  | MemberExpression _ _ _ _ =>
      details <- getMemberExpressionDetails ast ;;
      match details with
      | Some d => ret (DepsType (details_type d), dependencies)
      | None =>
          throw_ast ("Unhandled type " +:+ ast_type ast +:+ " in getAllVariables") ast
      end
  | _ => throw_ast ("Unhandled type " +:+ ast_type ast +:+ " in getAllVariables") ast
  end.

(** [this.isSafe(ast)] *)
Definition isSafe (ast : Ast) : M bool :=
  r <- getDependencies ast [] false ;; ret (isSafeDependencies (fst r)).

(** *** The generic walker

    [astGeneric] and the handlers call each other.  Each handler is
    written here over the walker it calls back ([walk]); [astGeneric] ties
    the knot.  A handler returns the array it was given, which the caller
    already holds, so the embedding returns nothing. *)

Section Handlers.

Variable walk : Ast -> nat -> M unit.

(** [astGeneric] on an array: each element in turn. *)
Fixpoint walk_array (l : list Ast) (retArr : nat) : M unit :=
  match l with
  | [] => ret tt
  | a :: l' => walk a retArr ;; walk_array l' retArr
  end.

Definition astDebuggerStatement (arrNode : Ast) (retArr : nat) : M unit := ret tt.

Definition astConditionalExpression (ast : Ast) (retArr : nat) : M unit :=
  match ast with
  | ConditionalExpression _ test consequent alternate =>
      push retArr [FStr "("] ;;
      walk test retArr ;;
      push retArr [FStr "?"] ;;
      walk consequent retArr ;;
      push retArr [FStr ":"] ;;
      walk alternate retArr ;;
      push retArr [FStr ")"]
  | _ => throw_ast "Not a conditional expression" ast
  end.

Definition astFunctionDeclaration (ast : Ast) (retArr : nat) : M unit :=
  f <- get_this ;;
  if onNestedFunction f then
    returnType <- getType ast ;;
    let returnType :=
      if bool_decide (returnType = JStr "LiteralInteger") then JStr "Number"
      else returnType in
    f <- get_this ;;
    call_hook (utils_getAstString ext (source f) ast) returnType
  else ret tt.

Definition astFunctionExpression (ast : Ast) (retArr : nat) : M unit := ret tt.
Definition astReturnStatement (ast : Ast) (retArr : nat) : M unit := ret tt.
Definition astLiteral (ast : Ast) (retArr : nat) : M unit := ret tt.
Definition astBinaryExpression (ast : Ast) (retArr : nat) : M unit := ret tt.
Definition astIdentifierExpression (ast : Ast) (retArr : nat) : M unit := ret tt.
Definition astAssignmentExpression (ast : Ast) (retArr : nat) : M unit := ret tt.

Definition astExpressionStatement (esNode : Ast) (retArr : nat) : M unit :=
  match esNode with
  | ExpressionStatement _ expression =>
      walk expression retArr ;;
      push retArr [FStr ";"]
  | _ => no_type
  end.

Definition astEmptyStatement (eNode : Ast) (retArr : nat) : M unit := ret tt.
Definition astBlockStatement (ast : Ast) (retArr : nat) : M unit := ret tt.
Definition astIfStatement (ast : Ast) (retArr : nat) : M unit := ret tt.

Definition astBreakStatement (brNode : Ast) (retArr : nat) : M unit :=
  push retArr [FStr "break;"].

Definition astContinueStatement (crNode : Ast) (retArr : nat) : M unit :=
  push retArr [FStr ("continue;" +:+ String LF EmptyString)].

Definition astForStatement (ast : Ast) (retArr : nat) : M unit := ret tt.
Definition astWhileStatement (ast : Ast) (retArr : nat) : M unit := ret tt.
Definition astDoWhileStatement (ast : Ast) (retArr : nat) : M unit := ret tt.

(** The loop of [astVariableDeclaration] over the declarators after the
    first. *)
Fixpoint later_declarations (type : jsstr) (l : list Ast) (result : nat) : M unit :=
  match l with
  | [] => ret tt
  | declaration :: l' =>
      dependencies <- getDependencies declaration [] false ;;
      id <- field "name" (ast_id declaration) ;;
      modify_this (fun f => set_declarations
        (<[to_key (ast_name id) :=
            {| decl_type := type; decl_dependencies := fst dependencies;
               decl_isSafe := false |}]> (declarations f)) f) ;;
      walk declaration result ;;
      later_declarations type l' result
  end.

(** The type of the declared names: the inferred one, which must have
    an entry in [typeMap]. *)
Definition declared_type (varDecNode init : Ast) : M jsstr :=
  f <- get_this ;;
  type <- (if isState "in-for-loop-init" f then ret (JStr "Integer") else getType init) ;;
  let type := if bool_decide (type = JStr "LiteralInteger") then JStr "Number" else type in
  let markupType := table_get (typeMap ext) type in
  if negb (truthy markupType)
  then throw_ast ("Markup type " +:+ to_key markupType +:+ " not handled") varDecNode
  else ret type.

Definition astVariableDeclaration (varDecNode : Ast) (retArr : nat) : M unit :=
  match varDecNode with
  | VariableDeclaration _ (VariableDeclarator _ id (Some init) :: rest) =>
      result <- new_array [] ;;
      type <- declared_type varDecNode init ;;
      dependencies <- getDependencies init [] false ;;
      match fst dependencies with
      | DepsArray l =>
          modify_this (fun f => set_declarations
            (<[to_key (ast_name id) :=
                {| decl_type := type; decl_dependencies := DepsArray l;
                   decl_isSafe := forallb dep_isSafe l |}]> (declarations f)) f)
      | _ => throw (TypeError "dependencies.every is not a function")
      end ;;
      initResult <- new_array
        [FStr (to_key type +:+ " user_" +:+ to_key (ast_name id) +:+ "=")] ;;
      walk init initResult ;;
      text <- join_array EmptyString initResult ;;
      push result [FStr text] ;;
      later_declarations type rest result ;;
      joined <- join_array "," result ;;
      push retArr [FSelf; FStr joined] ;;
      push retArr [FStr ";"]
  | VariableDeclaration _ (ForStatement _ (Some init) _ _ _ :: _) =>
      (* the only other node with an [init]; it has no [id] *)
      result <- new_array [] ;;
      type <- declared_type varDecNode init ;;
      dependencies <- getDependencies init [] false ;;
      throw (TypeError "Cannot read properties of undefined (reading 'name')")
  | _ => throw_ast "Unexpected expression" varDecNode
  end.

Definition astVariableDeclarator (iVarDecNode : Ast) (retArr : nat) : M unit :=
  match iVarDecNode with
  | VariableDeclarator _ id init =>
      walk id retArr ;;
      match init with
      | Some init' =>
          push retArr [FStr "="] ;;
          walk init' retArr
      | None => ret tt
      end
  | _ => no_type
  end.

Definition astThisExpression (ast : Ast) (retArr : nat) : M unit := ret tt.

(** The [for] loop of [astSequenceExpression]: one turn for each index
    [i] of [expressions], here for each element of [turns]. *)
Fixpoint sequence_loop (expressions turns : list Ast) (first : bool) (retArr : nat) : M unit :=
  match turns with
  | [] => ret tt
  | _ :: turns' =>
      (if first then ret tt else push retArr [FStr ","]) ;;
      walk_array expressions retArr ;;
      sequence_loop expressions turns' false retArr
  end.

Definition astSequenceExpression (sNode : Ast) (retArr : nat) : M unit :=
  match sNode with
  | SequenceExpression _ expressions => sequence_loop expressions expressions true retArr
  | _ => throw (TypeError "Cannot read properties of undefined (reading 'length')")
  end.

Definition astUnaryExpression (uNode : Ast) (retArr : nat) : M unit :=
  match uNode with
  | UnaryExpression _ operator prefix argument =>
      if prefix then
        push retArr [FStr operator] ;;
        walk argument retArr
      else
        walk argument retArr ;;
        push retArr [FStr operator]
  | _ => no_type
  end.

Definition astUpdateExpression (uNode : Ast) (retArr : nat) : M unit :=
  match uNode with
  | UpdateExpression _ operator prefix argument =>
      if prefix then
        push retArr [FStr operator] ;;
        walk argument retArr
      else
        walk argument retArr ;;
        push retArr [FStr operator]
  | _ => no_type
  end.

Definition astLogicalExpression (logNode : Ast) (retArr : nat) : M unit :=
  match logNode with
  | LogicalExpression _ operator left' right' =>
      push retArr [FStr "("] ;;
      walk left' retArr ;;
      push retArr [FStr operator] ;;
      walk right' retArr ;;
      push retArr [FStr ")"]
  | _ => push retArr [FStr "("] ;; no_type
  end.

Definition astMemberExpression (ast : Ast) (retArr : nat) : M unit := ret tt.
Definition astCallExpression (ast : Ast) (retArr : nat) : M unit := ret tt.
Definition astArrayExpression (ast : Ast) (retArr : nat) : M unit := ret tt.

End Handlers.

(** [astGeneric(ast, retArr)] on a node.  On an array it is [walk_array];
    a [null] never reaches it here, since the handlers that walk an
    optional child test it first. *)
Fixpoint astGeneric (ast : Ast) (retArr : nat) {struct ast} : M unit :=
  match ast with
  | FunctionDeclaration _ _ => astFunctionDeclaration ast retArr
  | FunctionExpression _ _ => astFunctionExpression ast retArr
  | ReturnStatement _ _ => astReturnStatement ast retArr
  | Literal _ _ => astLiteral ast retArr
  | BinaryExpression _ _ _ _ => astBinaryExpression ast retArr
  | Identifier _ _ => astIdentifierExpression ast retArr
  | AssignmentExpression _ _ _ _ => astAssignmentExpression ast retArr
  | ExpressionStatement _ _ => astExpressionStatement astGeneric ast retArr
  | EmptyStatement _ => astEmptyStatement ast retArr
  | BlockStatement _ _ => astBlockStatement ast retArr
  | IfStatement _ _ _ _ => astIfStatement ast retArr
  | BreakStatement _ => astBreakStatement ast retArr
  | ContinueStatement _ => astContinueStatement ast retArr
  | ForStatement _ _ _ _ _ => astForStatement ast retArr
  | WhileStatement _ _ _ => astWhileStatement ast retArr
  | DoWhileStatement _ _ _ => astDoWhileStatement ast retArr
  | VariableDeclaration _ _ => astVariableDeclaration astGeneric ast retArr
  | VariableDeclarator _ _ _ => astVariableDeclarator astGeneric ast retArr
  | ThisExpression _ => astThisExpression ast retArr
  | SequenceExpression _ _ => astSequenceExpression astGeneric ast retArr
  | UnaryExpression _ _ _ _ => astUnaryExpression astGeneric ast retArr
  | UpdateExpression _ _ _ _ => astUpdateExpression astGeneric ast retArr
  | LogicalExpression _ _ _ _ => astLogicalExpression astGeneric ast retArr
  | MemberExpression _ _ _ _ => astMemberExpression ast retArr
  | CallExpression _ _ _ => astCallExpression ast retArr
  | ArrayExpression _ _ => astArrayExpression ast retArr
  | DebuggerStatement _ => astDebuggerStatement ast retArr
  | ConditionalExpression _ _ _ _ => astConditionalExpression astGeneric ast retArr
  | OtherNode _ _ => throw_ast ("Unknown ast type : " +:+ ast_type ast) ast
  end.

(** *** Construction and serialization *)

(** The [settings] object: [None] where it has no such key.  Only the keys
    that name a field of the instance are read. *)
Record Settings : Type := {
  s_source : option Source;
  s_name : option jsstr;
  s_calledFunctions : option (list string);
  s_calledFunctionsArguments : option (gmap string (list (list (option ArgumentBinding))));
  s_constants : option (gmap string jsvalue);
  s_constantTypes : option (gmap string string);
  s_isRootKernel : option bool;
  s_isSubKernel : option bool;
  s_parent : option (option ParentNode);
  s_debug : option (option bool);
  s_declarations : option (gmap string Declaration);
  s_states : option (list string);
  s_lookupReturnType : option (option (string -> jsstr));
  s_onNestedFunction : option bool;
  s_loopMaxIterations : option (option nat);
  s_argumentNames : option (list string);
  s_argumentTypes : option (list jsstr);
  s_argumentSizes : option (list (list nat));
  s_returnType : option jsstr;
  s_output : option (list nat);
  s_plugins : option (option (list string))
}.

(** [{}] *)
Definition no_settings : Settings :=
  {| s_source := None; s_name := None; s_calledFunctions := None;
     s_calledFunctionsArguments := None; s_constants := None;
     s_constantTypes := None; s_isRootKernel := None; s_isSubKernel := None;
     s_parent := None; s_debug := None; s_declarations := None;
     s_states := None; s_lookupReturnType := None; s_onNestedFunction := None;
     s_loopMaxIterations := None; s_argumentNames := None;
     s_argumentTypes := None; s_argumentSizes := None; s_returnType := None;
     s_output := None; s_plugins := None |}.

(** The fields as the constructor sets them before it reads [settings].
    [argumentNames] of a source that is no string is [null] there; such an
    instance does not pass [validate], and the empty list stands for it. *)
Definition initial_fields (source' : Source) (settings : Settings) : FunctionNode :=
  {| source := source';
     name := match source' with
             | SourceString src =>
                 if default false (s_isRootKernel settings) then JStr "kernel"
                 else js_or (default JUndefined (s_name settings))
                            (utils_getFunctionNameFromString ext src)
             | _ => JNull
             end;
     calledFunctions := [];
     calledFunctionsArguments := ∅;
     constants := ∅;
     constantTypes := ∅;
     isRootKernel := false;
     isSubKernel := false;
     parent := None;
     debug := None;
     declarations := ∅;
     states := [];
     lookupReturnType := None;
     onNestedFunction := false;
     loopMaxIterations := None;
     argumentNames := match source' with
                      | SourceString src => utils_getArgumentNamesFromString ext src
                      | _ => []
                      end;
     argumentTypes := [];
     argumentSizes := [];
     returnType := JNull;
     output := [];
     plugins := None |}.

(** [for (const p in settings) ... this[p] = settings[p]] *)
Definition apply_settings (settings : Settings) (f : FunctionNode) : FunctionNode :=
  {| source := default (source f) (s_source settings);
     name := default (name f) (s_name settings);
     calledFunctions := default (calledFunctions f) (s_calledFunctions settings);
     calledFunctionsArguments :=
       default (calledFunctionsArguments f) (s_calledFunctionsArguments settings);
     constants := default (constants f) (s_constants settings);
     constantTypes := default (constantTypes f) (s_constantTypes settings);
     isRootKernel := default (isRootKernel f) (s_isRootKernel settings);
     isSubKernel := default (isSubKernel f) (s_isSubKernel settings);
     parent := default (parent f) (s_parent settings);
     debug := default (debug f) (s_debug settings);
     declarations := default (declarations f) (s_declarations settings);
     states := default (states f) (s_states settings);
     lookupReturnType := default (lookupReturnType f) (s_lookupReturnType settings);
     onNestedFunction := default (onNestedFunction f) (s_onNestedFunction settings);
     loopMaxIterations := default (loopMaxIterations f) (s_loopMaxIterations settings);
     argumentNames := default (argumentNames f) (s_argumentNames settings);
     argumentTypes := default (argumentTypes f) (s_argumentTypes settings);
     argumentSizes := default (argumentSizes f) (s_argumentSizes settings);
     returnType := default (returnType f) (s_returnType settings);
     output := default (output f) (s_output settings);
     plugins := default (plugins f) (s_plugins settings) |}.

(** [if (!this.returnType) this.returnType = 'Number'] *)
Definition default_returnType (f : FunctionNode) : FunctionNode :=
  {| source := source f; name := name f; calledFunctions := calledFunctions f;
     calledFunctionsArguments := calledFunctionsArguments f;
     constants := constants f; constantTypes := constantTypes f;
     isRootKernel := isRootKernel f; isSubKernel := isSubKernel f;
     parent := parent f; debug := debug f; declarations := declarations f;
     states := states f; lookupReturnType := lookupReturnType f;
     onNestedFunction := onNestedFunction f;
     loopMaxIterations := loopMaxIterations f;
     argumentNames := argumentNames f; argumentTypes := argumentTypes f;
     argumentSizes := argumentSizes f;
     returnType := if truthy (returnType f) then returnType f else JStr "Number";
     output := output f; plugins := plugins f |}.

(** [validate()]: the error it throws, if any. *)
Definition validate (f : FunctionNode) : option exn :=
  match source f with
  | SourceString src =>
      if negb (utils_isFunctionString ext src)
      then Some (Error "this.source not a function string")
      else if negb (truthy (name f))
      then Some (Error "this.name could not be set")
      else if bool_decide (0 < length (argumentTypes f))
              && negb (bool_decide (length (argumentTypes f) = length (argumentNames f)))
      then Some (Error ("argumentTypes count of " +:+ pretty (length (argumentTypes f))
                        +:+ " exceeds " +:+ pretty (length (argumentNames f))))
      else if bool_decide (length (output f) < 1)
      then Some (Error "this.output is not big enough")
      else None
  | _ => Some (Error "this.source not a string")
  end.

(** [!source] *)
Definition source_missing (source' : Source) : bool :=
  match source' with
  | SourceMissing => true
  | SourceString src => bool_decide (src = EmptyString)
  | SourceObject _ => false
  end.

(** [new FunctionNode(source, settings)] *)
Definition constructor (source' : Source) (settings : option Settings) : Res FunctionNode :=
  if source_missing source' then Throw (Error "source parameter is missing")
  else
    let settings := default no_settings settings in
    let f := default_returnType (apply_settings settings (initial_fields source' settings)) in
    match validate f with
    | Some e => Throw e
    | None => Ok f
    end.

(** The [settings] member of what [toJSON()] returns.  (The other member
    is the syntax tree that [getJsAST] cached.) *)
Definition toJSON (f : FunctionNode) : Settings :=
  {| s_source := Some (source f);
     s_name := Some (name f);
     s_calledFunctions := None;
     s_calledFunctionsArguments := None;
     s_constants := Some (constants f);
     s_constantTypes := Some (constantTypes f);
     s_isRootKernel := Some (isRootKernel f);
     s_isSubKernel := Some (isSubKernel f);
     s_parent := None;
     s_debug := Some (debug f);
     s_declarations := None;
     s_states := None;
     s_lookupReturnType := None;
     s_onNestedFunction := None;
     s_loopMaxIterations := Some (loopMaxIterations f);
     s_argumentNames := Some (argumentNames f);
     s_argumentTypes := Some (argumentTypes f);
     s_argumentSizes := Some (argumentSizes f);
     s_returnType := Some (returnType f);
     s_output := Some (output f);
     s_plugins := None |}.

End FunctionNode.

(** ** Sample inputs *)
Module Sample.

(** A backend and helpers in the style of the WebGL backend. *)
Definition ext : Externals :=
  {| utils_getFunctionNameFromString := fun _ => JStr "f";
     utils_getArgumentNamesFromString := fun _ => [];
     utils_isFunctionString := fun s => String.prefix "function" s;
     utils_getAstString := fun _ _ => "<ast>";
     typeMap := list_to_map
       [("Number", "float"); ("Integer", "int"); ("Array(2)", "vec2");
        ("Array(3)", "vec3"); ("Array(4)", "vec4")] |}.

(** Three lines of source text. *)
Definition text : string :=
  "function f() {" +:+ String LF "  return Math.floor(1.5);" +:+ String LF "}".

Definition settings : Settings :=
  {| s_source := None; s_name := None; s_calledFunctions := None;
     s_calledFunctionsArguments := None; s_constants := None;
     s_constantTypes := None; s_isRootKernel := None; s_isSubKernel := None;
     s_parent := None; s_debug := None; s_declarations := None;
     s_states := None; s_lookupReturnType := None; s_onNestedFunction := None;
     s_loopMaxIterations := None; s_argumentNames := None;
     s_argumentTypes := None; s_argumentSizes := None; s_returnType := None;
     s_output := Some [1]; s_plugins := None |}.

(** The instance [new FunctionNode(text, { output: [1] })]. *)
Definition node : FunctionNode :=
  default_returnType (apply_settings settings (initial_fields ext (SourceString text) settings)).

(** That instance and one empty output array, number 0. *)
Definition world : World := {| this := node; arrays := [[]]; hookCalls := [] |}.

(** The same with [states = ['in-for-loop-init']]. *)
Definition world_in_loop : World :=
  {| this := set_states ["in-for-loop-init"] node; arrays := [[]]; hookCalls := [] |}.

Definition number (q : Q) : Ast := Literal 0 (VNum q).

(** [Math.floor(1.5)] *)
Definition math_floor : Ast :=
  CallExpression 0
    (MemberExpression 0 (Identifier 0 "Math") (Identifier 0 "floor") false)
    [number (3 # 2)].

(** [function () { return Math.floor(1.5); }] as a declaration *)
Definition floor_function : Ast :=
  FunctionDeclaration 0 (BlockStatement 0 [ReturnStatement 0 (Some math_floor)]).

(** The same function as the expression that [getJsAST] takes out of
    [const parser_f = function () { return Math.floor(1.5); };] *)
Definition floor_function_expression : Ast :=
  FunctionExpression 0 (BlockStatement 0 [ReturnStatement 0 (Some math_floor)]).

(** [(1 + 2) * 3] *)
Definition sum_times : Ast :=
  BinaryExpression 0 "*" (BinaryExpression 0 "+" (number 1) (number 2)) (number 3).

(** [var a = 1;] *)
Definition var_a : Ast :=
  VariableDeclaration 0 [VariableDeclarator 0 (Identifier 0 "a") (Some (number 1))].

(** [var a = 1, b = 2;] *)
Definition var_a_b : Ast :=
  VariableDeclaration 0
    [VariableDeclarator 0 (Identifier 0 "a") (Some (number 1));
     VariableDeclarator 0 (Identifier 0 "b") (Some (number 2))].

(** [let x;] *)
Definition let_x : Ast :=
  VariableDeclaration 0 [VariableDeclarator 0 (Identifier 0 "x") None].

(** [i++, j--] *)
Definition two_updates : Ast :=
  SequenceExpression 0
    [UpdateExpression 0 "++" false (Identifier 0 "i");
     UpdateExpression 0 "--" false (Identifier 0 "j")].

(** [this.thread.x] *)
Definition thread_x : Ast :=
  MemberExpression 0
    (MemberExpression 0 (ThisExpression 0) (Identifier 0 "thread") false)
    (Identifier 0 "x") false.

End Sample.

(** ** Further methods *)

(** [getInternalVariableName(name)] reads and writes only
    [this._internalVariableNames], a plain object that starts empty; the
    embedding passes that dictionary in and out.  Two keys are special for
    a plain object.  Once ['hasOwnProperty'] is a key, the lookup
    [this._internalVariableNames.hasOwnProperty] finds the counter in
    place of the method, and the call throws.  ['__proto__'] never becomes
    a key: the assignments are dropped, what is read is the prototype
    object, and the text appended to the name is that of the object. *)
Definition getInternalVariableName (name' : string) (names : gmap string nat)
    : Res (string * gmap string nat) :=
  if bool_decide (is_Some (names !! "hasOwnProperty"))
  then Throw (TypeError "this._internalVariableNames.hasOwnProperty is not a function")
  else if bool_decide (name' = "__proto__")
  then Ok ("__proto__[object Object]", names)
  else
    let count := S (default 0 (names !! name')) in
    Ok (if bool_decide (count = 1) then name' else name' +:+ pretty count,
        <[name' := count]> names).

(** [k] calls in a row for the same name: the identifiers handed out, in
    order, and the dictionary afterwards. *)
Fixpoint issue (k : nat) (name' : string) (names : gmap string nat)
    : Res (list string * gmap string nat) :=
  match k with
  | 0 => Ok ([], names)
  | S k' =>
      match getInternalVariableName name' names with
      | Ok (x, names') =>
          match issue k' name' names' with
          | Ok (xs, names'') => Ok (x :: xs, names'')
          | Throw e => Throw e
          end
      | Throw e => Throw e
      end
  end.

(** [isInput(argumentName)]: [argumentTypes[-1]] is [undefined]. *)
Definition isInput (argumentName : jsstr) (f : FunctionNode) : bool :=
  match indexOf (argumentNames f) argumentName with
  | Some i => bool_decide (default JUndefined (argumentTypes f !! i) = JStr "Input")
  | None => false
  end.

(** The [for] loop of [getUserArgumentName]: the name of the first
    binding at the index that is there and is not of a scalar type. *)
Fixpoint user_binding (argumentIndex : nat)
    (calledFunctionArguments : list (list (option ArgumentBinding))) : jsstr :=
  match calledFunctionArguments with
  | [] => JNull
  | calledFunctionArgument :: rest =>
      match calledFunctionArgument !! argumentIndex with
      | Some (Some argument) =>
          if negb (bool_decide (arg_type argument = JStr "Integer"))
             && negb (bool_decide (arg_type argument = JStr "LiteralInteger"))
             && negb (bool_decide (arg_type argument = JStr "Number"))
          then arg_name argument
          else user_binding argumentIndex rest
      | _ => user_binding argumentIndex rest
      end
  end.

(** [getUserArgumentName(name)] changes nothing; it throws when the parent
    has recorded no call of this function. *)
Definition getUserArgumentName (name' : jsstr) (f : FunctionNode) : Res jsstr :=
  match indexOf (argumentNames f) name' with
  | None => Ok JNull
  | Some argumentIndex =>
      match parent f with
      | None => Ok JNull
      | Some p =>
          if isRootKernel f then Ok JNull
          else match parent_calledFunctionsArguments p !! to_key (name f) with
               | Some calledFunctionArguments =>
                   Ok (user_binding argumentIndex calledFunctionArguments)
               | None =>
                   Throw (TypeError
                            "Cannot read properties of undefined (reading 'length')")
               end
      end
  end.

(** [name[0] === '_'] *)
Definition starts_with_underscore (n : string) : bool :=
  match n with
  | String c _ => Ascii.eqb c (Ascii.ascii_of_nat 95)
  | EmptyString => false
  end.

(** [value === 0] for the value of a literal. *)
Definition is_zero (v : jsvalue) : bool :=
  match v with
  | VNum q => (Qnum q =? 0)%Z
  | _ => false
  end.

Section Unroll.

Variable ext : Externals.

(** [astMemberExpressionUnroll(ast)].  A member expression always has
    its [object] and its [property]; only an identifier has a [name] of
    its own and only a sequence has [expressions]. *)
Fixpoint astMemberExpressionUnroll (ast : Ast) : M string :=
  match ast with
  | Identifier _ name' => ret name'
  | ThisExpression _ => ret "this"
  | MemberExpression _ object property _ =>
      if match object with
         | Identifier _ name' => starts_with_underscore name'
         | _ => false
         end
      then astMemberExpressionUnroll property
      else
        o <- astMemberExpressionUnroll object ;;
        p <- astMemberExpressionUnroll property ;;
        ret (o +:+ "." +:+ p)
  | SequenceExpression _ expressions =>
      match expressions with
      | [] => no_type
      | firstExpression :: rest =>
          match firstExpression, rest with
          | Literal _ value, [second] =>
              if is_zero value then astMemberExpressionUnroll second
              else throw_ast ext "Unknown astMemberExpressionUnroll" ast
          | _, _ => throw_ast ext "Unknown astMemberExpressionUnroll" ast
          end
      end
  | _ => throw_ast ext "Unknown astMemberExpressionUnroll" ast
  end.

End Unroll.

(** ** Further sample inputs *)
Module Sample2.

(** The calls of [f] that a parent recorded: [f(null, x)] with [x] a
    number, then [f(v, null)] with [v] an array. *)
Definition calls : list (list (option ArgumentBinding)) :=
  [ [None; Some {| arg_type := JStr "Number"; arg_name := JStr "x" |}];
    [Some {| arg_type := JStr "Array"; arg_name := JStr "v" |}; None] ].

Definition parent_node : ParentNode :=
  {| parent_calledFunctionsArguments := {[ "f" := calls ]} |}.

(** A sub-kernel [f(a, b)] whose argument types are not known yet. *)
Definition sub_settings : Settings :=
  {| s_source := None; s_name := None; s_calledFunctions := None;
     s_calledFunctionsArguments := None; s_constants := None;
     s_constantTypes := None; s_isRootKernel := None;
     s_isSubKernel := Some true; s_parent := Some (Some parent_node);
     s_debug := None; s_declarations := None; s_states := None;
     s_lookupReturnType := None; s_onNestedFunction := None;
     s_loopMaxIterations := None; s_argumentNames := Some ["a"; "b"];
     s_argumentTypes := None; s_argumentSizes := None; s_returnType := None;
     s_output := Some [1]; s_plugins := None |}.

Definition sub_node : FunctionNode :=
  default_returnType
    (apply_settings sub_settings
       (initial_fields Sample.ext (SourceString Sample.text) sub_settings)).

Definition sub_world : World := {| this := sub_node; arrays := [[]]; hookCalls := [] |}.

(** A kernel [f(a, b)] with [a] an array of images and [b] an input. *)
Definition typed_settings : Settings :=
  {| s_source := None; s_name := None; s_calledFunctions := None;
     s_calledFunctionsArguments := None; s_constants := None;
     s_constantTypes := None; s_isRootKernel := None; s_isSubKernel := None;
     s_parent := None; s_debug := None; s_declarations := None;
     s_states := None; s_lookupReturnType := None;
     s_onNestedFunction := None; s_loopMaxIterations := None;
     s_argumentNames := Some ["a"; "b"];
     s_argumentTypes := Some [JStr "HTMLImageArray"; JStr "Input"];
     s_argumentSizes := None; s_returnType := None; s_output := Some [1];
     s_plugins := None |}.

Definition typed_node : FunctionNode :=
  default_returnType
    (apply_settings typed_settings
       (initial_fields Sample.ext (SourceString Sample.text) typed_settings)).

Definition typed_world : World := {| this := typed_node; arrays := [[]]; hookCalls := [] |}.

(** A root kernel that is given a name. *)
Definition root_settings : Settings :=
  {| s_source := None; s_name := Some (JStr "main");
     s_calledFunctions := None; s_calledFunctionsArguments := None;
     s_constants := None; s_constantTypes := None;
     s_isRootKernel := Some true; s_isSubKernel := None; s_parent := None;
     s_debug := None; s_declarations := None; s_states := None;
     s_lookupReturnType := None; s_onNestedFunction := None;
     s_loopMaxIterations := None; s_argumentNames := None;
     s_argumentTypes := None; s_argumentSizes := None; s_returnType := None;
     s_output := Some [1]; s_plugins := None |}.

Definition root_node : FunctionNode :=
  default_returnType
    (apply_settings root_settings
       (initial_fields Sample.ext (SourceString Sample.text) root_settings)).




(** Two arrays of emitted text, the second with something in it. *)
Definition two_arrays : World :=
  {| this := Sample.node; arrays := [[]; [FStr "kept"]]; hookCalls := [] |}.


(** [(1 + 2) * (3 + 4)] *)
Definition product_of_sums : Ast :=
  BinaryExpression 0 "*"
    (BinaryExpression 1 "+" (Literal 1 (VNum 1)) (Literal 5 (VNum 2)))
    (BinaryExpression 11 "+" (Literal 11 (VNum 3)) (Literal 15 (VNum 4))).

(** [var x = (1 + 2) * (3 + 4);] *)
Definition var_x : Ast :=
  VariableDeclaration 0
    [VariableDeclarator 4 (Identifier 4 "x") (Some product_of_sums)].

(** The function expression that [getJsAST] takes out of
    [const parser_f = function f() {...};] for the text of [Sample.text]:
    the offsets count the seventeen characters in front of the text. *)
Definition parsed_floor_function : Ast :=
  FunctionExpression 17
    (BlockStatement 30
       [ReturnStatement 34
          (Some (CallExpression 41
                   (MemberExpression 41 (Identifier 41 "Math") (Identifier 46 "floor") false)
                   [Literal 52 (VNum (3 # 2))]))]).

End Sample2.

(** ** Notions used in the statements *)

(** [w] with another instance. *)
Definition with_this (f : FunctionNode) (w : World) : World :=
  {| this := f; arrays := arrays w; hookCalls := hookCalls w |}.

(** The expressions inside which the context set by a [*] or a [/] is
    never replaced: literals, identifiers, update expressions of such, and
    products and quotients of such. *)
Fixpoint unsafe_throughout (ast : Ast) : bool :=
  match ast with
  | Literal _ _ | Identifier _ _ => true
  | UpdateExpression _ _ _ argument => unsafe_throughout argument
  | BinaryExpression _ operator left' right' =>
      (bool_decide (operator = "/") || bool_decide (operator = "*"))
      && unsafe_throughout left' && unsafe_throughout right'
  | _ => false
  end.

(** The dependency a literal number contributes. *)
Definition literal_dependency (q : Q) (safe : bool) : Dependency :=
  {| dep_origin := "literal"; dep_name := JUndefined; dep_value := Some (VNum q);
     dep_isSafe := safe |}.

(** The nodes under which the walker reaches no variable declaration
    (the handlers of the other kinds walk no further). *)
Fixpoint declaration_free (ast : Ast) : bool :=
  match ast with
  | VariableDeclaration _ _ => false
  | ExpressionStatement _ expression => declaration_free expression
  | VariableDeclarator _ id init =>
      declaration_free id && from_option declaration_free true init
  | SequenceExpression _ expressions => forallb declaration_free expressions
  | UnaryExpression _ _ _ argument | UpdateExpression _ _ _ argument =>
      declaration_free argument
  | LogicalExpression _ _ left' right' =>
      declaration_free left' && declaration_free right'
  | ConditionalExpression _ test consequent alternate =>
      declaration_free test && declaration_free consequent && declaration_free alternate
  | _ => true
  end.

(** [declaration.id.name] as a key of [this.declarations]. *)
Definition declarator_key (d : Ast) : string := to_key (opt_name (ast_id d)).

(** The two ways [astVariableDeclaration] makes a record: for the first
    declarator, and for the later ones. *)
Definition made_by_first (r : Declaration) : Prop :=
  exists l, decl_dependencies r = DepsArray l /\ decl_isSafe r = forallb dep_isSafe l.

Definition made_by_later (r : Declaration) : Prop := decl_isSafe r = false.

(** Every record of [w'] was already in [w] or was made in one of the two
    ways. *)
Definition records_kept_or_made (w w' : World) : Prop :=
  forall n r, declarations (this w') !! n = Some r ->
    declarations (this w) !! n = Some r \/ made_by_first r \/ made_by_later r.

(** A computation that only stores such records, and one that stores
    none. *)
Definition stores_well {A} (m : M A) : Prop :=
  forall w, records_kept_or_made w (snd (m w)).

Definition keeps_declarations {A} (m : M A) : Prop :=
  forall w, declarations (this (snd (m w))) = declarations (this w).

Definition keeps_dependencies (ext : Externals) (ast : Ast) : Prop :=
  forall deps flag, keeps_declarations (getDependencies ext ast deps flag).

Definition walks_well (walk : Ast -> nat -> M unit) (ast : Ast) : Prop :=
  forall retArr, stores_well (walk ast retArr).

Definition walker_stores_well (ext : Externals) (ast : Ast) : Prop :=
  forall retArr, stores_well (astGeneric ext ast retArr).

(** The length of the text that [signature.join('')] gives. *)
Fixpoint total_length (l : list string) : nat :=
  match l with
  | [] => 0
  | x :: l' => String.length x + total_length l'
  end.

(** The lengths a signature that starts at a member expression can
    have: never the 5 of ['value']. *)
Definition never_five (n : nat) : Prop := n = 2 \/ n = 4 \/ 6 <= n.

(** A computation that never returns [null]. *)
Definition never_null {A} (m : M (option A)) : Prop :=
  forall w w', m w <> (Ok None, w').

(** The first [n] characters: [s.substr(0, n)]. *)
Fixpoint leading (s : string) (n : nat) : string :=
  match n, s with
  | S n', String c s' => String c (leading s' n')
  | _, _ => EmptyString
  end.

(** The position of an offset as the specification words it: the number
    of the line that holds the offset, counted from 1, and the length of
    the text between the last line feed before the offset and the
    offset. *)
Definition line_by_spec (src : string) (offset : nat) : nat :=
  length (split_lines (leading src offset)).

Definition column_by_spec (src : string) (offset : nat) : nat :=
  String.length (default EmptyString (last (split_lines (leading src offset)))).

(** The emission of a sequence as the specification words it: each
    sub-expression once, in order, with a comma between two. *)
Fixpoint sequence_by_spec (walk : Ast -> nat -> M unit) (expressions : list Ast)
    (first : bool) (retArr : nat) : M unit :=
  match expressions with
  | [] => ret tt
  | e :: rest =>
      (if first then ret tt else push retArr [FStr ","]) ;;
      walk e retArr ;;
      sequence_by_spec walk rest false retArr
  end.

(** The identifier that the [i]-th request for a name is answered with. *)
Definition internal_name (name' : string) (i : nat) : string :=
  if bool_decide (i = 1) then name' else name' +:+ pretty i.

(** [base[i1][i2]...]: each index comes with the offset of its member
    expression. *)
Definition index_chain (base : Ast) (indices : list (nat * Ast)) : Ast :=
  fold_left (fun object si => MemberExpression (fst si) object (snd si) true) indices base.

(** [base.n1.n2...]: each name comes with the offsets of its member
    expression and of its identifier. *)
Definition member_chain (base : Ast) (names : list (nat * nat * string)) : Ast :=
  fold_left
    (fun object n =>
       MemberExpression (fst (fst n)) object (Identifier (snd (fst n)) (snd n)) false)
    names base.

(** The types that [getUserArgumentName] passes over. *)
Definition is_scalar_type (t : jsstr) : bool :=
  bool_decide (t = JStr "Integer") || bool_decide (t = JStr "LiteralInteger")
  || bool_decide (t = JStr "Number").

(** A computation whose final world, returned or thrown from, is always
    related to the initial one by [R]. *)
Definition respects (R : World -> World -> Prop) {A} (m : M A) : Prop :=
  forall w, R w (snd (m w)).

Definition respects_dependencies (R : World -> World -> Prop) (ext : Externals)
    (ast : Ast) : Prop :=
  forall deps flag, respects R (getDependencies ext ast deps flag).

Definition respects_walk (R : World -> World -> Prop) (walk : Ast -> nat -> M unit)
    (ast : Ast) : Prop :=
  forall retArr, respects R (walk ast retArr).

(** [w'] is [w] but for [this.argumentTypes]. *)
Definition only_argumentTypes (w w' : World) : Prop :=
  exists l, w' = with_this (set_argumentTypes l (this w)) w.

(** Every array of [w] is still there in [w'], with what it held at its
    front. *)
Definition arrays_grow (w w' : World) : Prop :=
  forall i l, arrays w !! i = Some l -> exists added, arrays w' !! i = Some (l ++ added).

(** The instance of [w'] is that of [w] but for [declarations] and
    [argumentTypes]. *)
Definition instance_frame (w w' : World) : Prop :=
  exists d l, this w' = set_declarations d (set_argumentTypes l (this w)).

(** What holds of every dependency record that [getDependencies] makes. *)
Definition dep_sound (d : Dependency) : Prop :=
  dep_origin d ∈ ["literal"; "declaration"; "argument"; "function"] /\
  (dep_origin d = "argument" -> dep_isSafe d = false) /\
  (dep_origin d = "function" -> dep_isSafe d = true).

Definition extends_soundly (ext : Externals) (ast : Ast) : Prop :=
  forall deps flag w v deps' w',
    getDependencies ext ast deps flag w = (Ok (v, deps'), w') ->
    (exists added, deps' = deps ++ added /\ Forall dep_sound added) /\
    (forall l, v = DepsArray l -> l = deps').

Definition same_arrays (w w' : World) : Prop := arrays w' = arrays w.



(** No array of [w] is lost in [w'], and each of the first [n] arrays
    other than number [r] is in [w'] what it is in [w]. *)
Definition others_kept (n r : nat) (w w' : World) : Prop :=
  length (arrays w) <= length (arrays w') /\
  forall i, i < n -> i <> r -> arrays w' !! i = arrays w !! i.

(** A computation that, of the first [n] arrays, writes to number [r]
    at most. *)
Definition writes_to (n r : nat) {A} (m : M A) : Prop :=
  forall w, n <= length (arrays w) -> others_kept n r w (snd (m w)).

Definition walk_writes_to (walk : Ast -> nat -> M unit) (ast : Ast) : Prop :=
  forall n r, writes_to n r (walk ast r).

(** The descriptor of [n[i1]...[ik]] for a variable of type [type]: the
    last index is [x], the one before it [y], the one before that [z]. *)
Definition indexed_details (n : string) (indices : list (nat * Ast)) (type : jsstr)
    : Details :=
  {| details_name := JStr n; details_origin := JStr "user";
     details_signature :=
       JStr ("value" +:+ String.concat EmptyString (replicate (length indices) "[]"));
     details_type := type;
     details_property := None;
     details_xProperty := snd <$> rev indices !! 0;
     details_yProperty := snd <$> rev indices !! 1;
     details_zProperty := snd <$> rev indices !! 2 |}.



(** * Properties *)

(** ** The state stack *)

Lemma state_snoc (f : FunctionNode) (stack : list string) (top : string) :
  states f = stack ++ [top] -> state f = Some top.
Proof. intros H. unfold state. rewrite H. apply last_snoc. Qed.

(** C8.  Popping with a label that is not the top of the stack throws and
    leaves the instance and everything else as it was; popping with the
    label that is the top removes that one element. *)
Theorem popState_checks_label (w : World) (label : string) :
  (state (this w) <> Some label ->
     popState label w
     = (Throw (Error ("Cannot popState " +:+ label +:+ " when in "
                      +:+ default "undefined" (state (this w)))), w)) /\
  (forall stack, states (this w) = stack ++ [label] ->
     popState label w = (Ok tt, with_this (set_states stack (this w)) w)).
Proof.
  split.
  - intros Hne. unfold popState, bind, get_this.
    rewrite bool_decide_eq_false_2 by exact Hne. reflexivity.
  - intros stack Hst. unfold popState, bind, get_this.
    rewrite bool_decide_eq_true_2 by (eapply state_snoc; exact Hst).
    unfold modify_this, with_this. rewrite Hst, removelast_last. reflexivity.
Qed.

(** A pop that is refused and a pop that is done. *)
Lemma popState_checks_label_witness :
  popState "in-for-loop-init" Sample.world
  = (Throw (Error "Cannot popState in-for-loop-init when in undefined"), Sample.world) /\
  popState "in-for-loop-init" Sample.world_in_loop
  = (Ok tt, with_this (set_states [] (this Sample.world_in_loop)) Sample.world_in_loop).
Proof.
  split.
  - apply (proj1 (popState_checks_label Sample.world "in-for-loop-init")).
    vm_compute. discriminate.
  - apply (proj2 (popState_checks_label Sample.world_in_loop "in-for-loop-init") []).
    reflexivity.
Defined.

(** ** Declarations without an initializer *)

Section NoInitializer.

Variable ext : Externals.

(** C9.  A variable declaration whose list of declarators is empty, or
    whose first declarator has no initializer, makes the walker throw the
    'Unexpected expression' diagnostic for that node; no array and no
    field of the instance has changed when it does, so nothing was emitted
    and no declaration was recorded. *)
Theorem astVariableDeclaration_needs_init
    (s : nat) (declarations' : list Ast) (retArr : nat) (w : World) :
  head declarations' ≫= ast_init = None ->
  astGeneric ext (VariableDeclaration s declarations') retArr w
  = (Throw (astErrorOutput ext "Unexpected expression"
              (VariableDeclaration s declarations') (this w)), w).
Proof.
  intros H. destruct declarations' as [|d rest]; [reflexivity|].
  cbn in H.
  destruct d; try reflexivity; cbn in H; subst; reflexivity.
Qed.

End NoInitializer.

(** [let x;] *)
Lemma astVariableDeclaration_needs_init_witness :
  astGeneric Sample.ext Sample.let_x 0 Sample.world
  = (Throw (AstError "Unexpected expression" 3 1 "<ast>"), Sample.world).
Proof.
  exact (astVariableDeclaration_needs_init Sample.ext
           0 [VariableDeclarator 0 (Identifier 0 "x") None] 0 Sample.world eq_refl).
Defined.

(** ** Member expressions in the dependency analyzer *)

Section MemberDependencies.

Variable ext : Externals.

(** C10.  On a member expression [getDependencies] does what the
    decomposer decides: with a descriptor it returns the descriptor's
    [type] and leaves the array of dependencies as it was; with no
    descriptor it throws the 'Unhandled type' diagnostic; and what the
    decomposer throws, it throws. *)
Theorem getDependencies_member_expression
    (s : nat) (object property : Ast) (computed : bool)
    (dependencies : list Dependency) (isNotSafe : bool) (w : World) :
  let ast := MemberExpression s object property computed in
  getDependencies ext ast dependencies isNotSafe w =
  match getMemberExpressionDetails ext ast w with
  | (Ok (Some details), w') => (Ok (DepsType (details_type details), dependencies), w')
  | (Ok None, w') =>
      (Throw (astErrorOutput ext "Unhandled type MemberExpression in getAllVariables"
                ast (this w')), w')
  | (Throw e, w') => (Throw e, w')
  end.
Proof.
  intros ast. subst ast. cbn [getDependencies]. unfold bind.
  destruct (getMemberExpressionDetails _ _ w) as [[[d|]|e] w']; reflexivity.
Qed.

End MemberDependencies.

(** *** The signature of a member expression is never [value] *)

Lemma length_append (a b : string) : String.length (a +:+ b) = String.length a + String.length b.
Proof.
  induction a as [|c a IH]; [reflexivity|].
  change (String c a +:+ b) with (String c (a +:+ b)). cbn [String.length].
  rewrite IH. reflexivity.
Qed.

Lemma length_concat (l : list string) :
  String.length (String.concat EmptyString l) = total_length l.
Proof.
  induction l as [|x l IH]; [reflexivity|].
  destruct l as [|y l].
  - cbn. lia.
  - change (String.concat EmptyString (x :: y :: l))
      with (x +:+ EmptyString +:+ String.concat EmptyString (y :: l)).
    rewrite !length_append, IH. cbn. lia.
Qed.

Lemma total_length_snoc (l : list string) (x : string) :
  total_length (l ++ [x]) = total_length l + String.length x.
Proof. induction l as [|y l IH]; cbn; [lia|]. rewrite IH. lia. Qed.

Lemma signature_step_length (ast : Ast) (signature : list string) :
  exists k, (k = 2 \/ 4 <= k) /\
    total_length (signature_step ast signature) = total_length signature + k.
Proof.
  unfold signature_step.
  destruct (ast_computed ast);
    [exists 2; rewrite total_length_snoc; split; [left|]; reflexivity|].
  destruct (bool_decide (ast_type ast = "ThisExpression")); [exists 4; cbn; lia|].
  destruct (truthy (opt_name (ast_property ast))).
  - cbv zeta. set (n := to_key (opt_name (ast_property ast))).
    destruct (bool_decide (n = "x") || bool_decide (n = "y") || bool_decide (n = "z"));
      [exists 6; cbn; lia|].
    destruct (bool_decide (n = "constants") || bool_decide (n = "thread")
              || bool_decide (n = "output")) eqn:E; [|exists 6; cbn; lia].
    exists (String.length ("." +:+ n)). split; [right|cbn [total_length]; apply Nat.add_comm].
    apply orb_true_iff in E as [E|E]; [apply orb_true_iff in E as [E|E]|];
      apply bool_decide_eq_true_1 in E; rewrite E; compute; lia.
  - destruct (truthy (ast_name ast)); [exists 5; cbn; lia|].
    destruct (truthy (opt_name (ast_callee ast))); [exists 4|exists 7]; cbn; lia.
Qed.

Lemma signature_loop_length (ast : Ast) (signature : list string) :
  never_five (total_length signature) ->
  never_five (total_length (signature_loop ast signature)).
Proof.
  revert signature.
  assert (Hstep : forall a sig, never_five (total_length sig) ->
                                never_five (total_length (signature_step a sig))).
  { intros a sig H. destruct (signature_step_length a sig) as (k & Hk & ->).
    unfold never_five in *. lia. }
  induction ast; intros signature Hsig; cbn [signature_loop]; try (apply Hstep; exact Hsig).
  apply IHast1, Hstep, Hsig.
Qed.

Lemma signature_step_member (s : nat) (object property : Ast) (computed : bool)
    (signature : list string) :
  exists k, (k = 2 \/ 6 <= k) /\
    total_length (signature_step (MemberExpression s object property computed) signature)
    = total_length signature + k.
Proof.
  unfold signature_step.
  change (ast_computed (MemberExpression s object property computed)) with computed.
  change (ast_name (MemberExpression s object property computed)) with JUndefined.
  change (ast_callee (MemberExpression s object property computed)) with (@None Ast).
  destruct computed;
    [exists 2; rewrite total_length_snoc; split; [left|]; reflexivity|].
  destruct (bool_decide (_ = "ThisExpression")) eqn:E; [discriminate E|].
  destruct (truthy (opt_name (ast_property _))).
  - cbv zeta. set (n := to_key (opt_name (ast_property _))).
    destruct (bool_decide (n = "x") || bool_decide (n = "y") || bool_decide (n = "z"));
      [exists 6; cbn; lia|].
    destruct (bool_decide (n = "constants") || bool_decide (n = "thread")
              || bool_decide (n = "output")) eqn:E'; [|exists 6; cbn; lia].
    exists (String.length ("." +:+ n)). split; [right|cbn [total_length]; apply Nat.add_comm].
    apply orb_true_iff in E' as [E'|E']; [apply orb_true_iff in E' as [E'|E']|];
      apply bool_decide_eq_true_1 in E'; rewrite E'; compute; lia.
  - exists 7. cbn. lia.
Qed.

Lemma member_signature_not_value (s : nat) (object property : Ast) (computed : bool) :
  String.concat EmptyString (signature_loop (MemberExpression s object property computed) [])
  <> "value".
Proof.
  intros E. apply (f_equal String.length) in E. rewrite length_concat in E.
  cbn [signature_loop] in E.
  destruct (signature_step_member s object property computed []) as (k & Hk & Hlen).
  assert (H : never_five
                (total_length (signature_step (MemberExpression s object property computed) []))).
  { rewrite Hlen. unfold never_five. cbn. lia. }
  apply (signature_loop_length object) in H. unfold never_five in H.
  cbn in E. lia.
Qed.

Lemma never_null_ret {A} (a : A) : never_null (ret (Some a)).
Proof. intros w w' H. discriminate H. Qed.

Lemma never_null_throw {A} (e : exn) : never_null (@throw (option A) e).
Proof. intros w w' H. discriminate H. Qed.

Lemma never_null_bind {A B} (m : M A) (k : A -> M (option B)) :
  (forall a, never_null (k a)) -> never_null (bind m k).
Proof.
  intros Hk w w'. unfold bind. destruct (m w) as [[a|e] w1]; [apply Hk | discriminate].
Qed.

Ltac never_null_step :=
  first
    [ apply never_null_ret | apply never_null_throw
    | apply never_null_bind; intros ?
    | match goal with
      | |- never_null (if ?b then _ else _) => destruct b
      end ].

Section Decomposer.

Variable ext : Externals.

Lemma never_null_throw_ast {A} (error : string) (ast : Ast) :
  never_null (@throw_ast ext (option A) error ast).
Proof. unfold throw_ast. apply never_null_bind. intros f. apply never_null_throw. Qed.

(** The decomposer has a descriptor for every member expression it does
    not refuse: the case that returns [null] is the one of the signature
    ['value'], which only an identifier has.  So the 'Unhandled type'
    diagnostic of [getDependencies] is never thrown for a member
    expression. *)
Lemma getMemberExpressionDetails_some
    (s : nat) (object property : Ast) (computed : bool) :
  never_null (getMemberExpressionDetails ext (MemberExpression s object property computed)).
Proof.
  unfold getMemberExpressionDetails.
  cbn [ast_type negb]. rewrite bool_decide_eq_true_2 by reflexivity. cbn [negb].
  unfold getVariableSignature. cbn [isAstVariable negb ast_type].
  rewrite (bool_decide_eq_false_2 ("MemberExpression" = "Identifier")) by discriminate.
  cbv zeta.
  pose proof (member_signature_not_value s object property computed) as Hnot.
  set (sig := String.concat EmptyString _) in *.
  assert (Hcase : forall v, v = JStr sig \/ v = JNull -> bool_decide (v = JStr "value") = false).
  { intros v [-> | ->]; apply bool_decide_eq_false_2; congruence. }
  intros w w'. unfold bind at 1.
  destruct (bool_decide (sig ∈ allowedExpressions)); cbn [ret];
    (rewrite Hcase by auto); revert w w';
    match goal with |- forall w w', ?m w <> _ => change (never_null m) end;
    unfold user_details, constant_details; cbv zeta;
    repeat first [ apply never_null_throw_ast | never_null_step ].
Qed.
End Decomposer.

(** A member expression with a descriptor: [this.thread.x]. *)
Example getDependencies_thread_x :
  getDependencies Sample.ext Sample.thread_x [] false Sample.world
  = (Ok (DepsType (JStr "Integer"), []), Sample.world).
Proof. vm_compute. reflexivity. Qed.

(** ** Calls of Math functions in the type oracle *)

(** Every call of a recognized Math function has the type [Number]: the
    [CallExpression] case returns before any name is looked at. *)
Lemma getType_math_call (ext : Externals) (ast : Ast) (w : World) :
  isAstMathFunction ast = true ->
  getType ext ast w = (Ok (JStr "Number"), w).
Proof.
  intros H. destruct ast; try discriminate H.
  cbn [getType]. rewrite H. reflexivity.
Qed.

(** The test that guards the [ceil], [floor], [round] cases of the
    [MemberExpression] case is never true there. *)
Lemma isAstMathFunction_member (s : nat) (object property : Ast) (computed : bool) :
  isAstMathFunction (MemberExpression s object property computed) = false.
Proof. reflexivity. Qed.

(** C2.  What the oracle answers for [Math.floor(1.5)], and for the
    function declaration that returns it: [Number] both times.  For the
    function expression it has no case and throws. *)
Theorem getType_math_floor :
  getType Sample.ext Sample.math_floor Sample.world = (Ok (JStr "Number"), Sample.world) /\
  getType Sample.ext Sample.floor_function Sample.world = (Ok (JStr "Number"), Sample.world) /\
  getType Sample.ext Sample.floor_function_expression Sample.world
  = (Throw (astErrorOutput Sample.ext
              ("Unhandled getType Type " +:+ quoted "FunctionExpression")
              Sample.floor_function_expression Sample.node),
     Sample.world).
Proof. repeat split; vm_compute; reflexivity. Qed.

(** ** The error reporter *)

(** The line that [astErrorOutput] reports is one more than the number of
    line feeds from the node's start to the end of the source. *)
Lemma split_lines_length (s : string) :
  length (split_lines s) = S (length (filter (fun c => c = LF) (String.list_ascii_of_string s))).
Proof.
  induction s as [|c s IH]; [reflexivity|].
  cbn [split_lines String.list_ascii_of_string].
  destruct (Ascii.eqb_spec c LF) as [->|Hne].
  - rewrite filter_cons_True by reflexivity. cbn. rewrite IH. reflexivity.
  - rewrite filter_cons_False by exact Hne.
    destruct (split_lines s); cbn in *; [discriminate | exact IH].
Qed.

(** C5.  The diagnostic for the function expression itself, which starts
    at offset 0 of a source of three lines, the last of which is one
    character long: line 3, position 1, where the offset is on line 1 at
    column 0. *)
Theorem astErrorOutput_first_line :
  source Sample.node = SourceString Sample.text /\
  ast_start Sample.floor_function_expression = 0 /\
  astErrorOutput Sample.ext "Unhandled getType Type" Sample.floor_function_expression
    Sample.node
  = AstError "Unhandled getType Type" 3 1 "<ast>" /\
  line_by_spec Sample.text 0 = 1 /\
  column_by_spec Sample.text 0 = 0.
Proof. repeat split; vm_compute; reflexivity. Qed.

(** ** Sequences *)

(** C7.  What the walker adds to an empty array for [i++, j--]: both
    operators, a comma, and both operators again; each sub-expression
    once, with the comma between, would be the first operator, the comma
    and the second operator. *)
Theorem astSequenceExpression_two :
  astGeneric Sample.ext Sample.two_updates 0 Sample.world
  = (Ok tt,
     {| this := Sample.node;
        arrays := [[FStr "++"; FStr "--"; FStr ","; FStr "++"; FStr "--"]];
        hookCalls := [] |}) /\
  sequence_by_spec (astGeneric Sample.ext)
    [UpdateExpression 0 "++" false (Identifier 0 "i");
     UpdateExpression 0 "--" false (Identifier 0 "j")] true 0 Sample.world
  = (Ok tt,
     {| this := Sample.node;
        arrays := [[FStr "++"; FStr ","; FStr "--"]];
        hookCalls := [] |}).
Proof. split; vm_compute; reflexivity. Qed.

(** A sequence of one expression is emitted once. *)
Lemma astSequenceExpression_one (ext : Externals) (s : nat) (e : Ast) (retArr : nat) (w : World) :
  astGeneric ext (SequenceExpression s [e]) retArr w = astGeneric ext e retArr w.
Proof.
  cbn [astGeneric astSequenceExpression sequence_loop walk_array]. unfold bind, ret.
  destruct (astGeneric ext e retArr w) as [[[]|] ?]; reflexivity.
Qed.

(** ** Variable declarations *)

(** A type without an entry in [typeMap] stops the handler with a
    diagnostic for the declaration. *)
Lemma declared_type_unmapped (ext : Externals) (varDecNode init : Ast) (w w' : World) (type : jsstr) :
  isState "in-for-loop-init" (this w) = false ->
  getType ext init w = (Ok type, w') ->
  truthy (table_get (typeMap ext)
            (if bool_decide (type = JStr "LiteralInteger") then JStr "Number" else type))
  = false ->
  exists e, declared_type ext varDecNode init w = (Throw e, w').
Proof.
  intros Hst Hty Hmap. unfold declared_type, bind, get_this.
  rewrite Hst, Hty, Hmap. cbn. eexists. reflexivity.
Qed.

(** C4.  What the walker adds to the empty array number 0 for
    [var a = 1;] when [typeMap] lowers [Number] to [float]: the array
    itself, the text with the name of the inferred type, and the
    semicolon. *)
Theorem astVariableDeclaration_var_a :
  typeMap Sample.ext !! "Number" = Some "float" /\
  exists w',
    astGeneric Sample.ext Sample.var_a 0 Sample.world = (Ok tt, w') /\
    arrays w' !! 0 = Some [FSelf; FStr "Number user_a="; FStr ";"].
Proof.
  split; [vm_compute; reflexivity|].
  eexists. split; [vm_compute; reflexivity|]. reflexivity.
Qed.

(** ** Serialization and construction *)

Section RoundTrip.

Variable ext : Externals.

(** The empty text is no function text. *)
Hypothesis empty_is_no_function : utils_isFunctionString ext EmptyString = false.

Lemma default_returnType_truthy (f : FunctionNode) :
  truthy (returnType (default_returnType f)) = true.
Proof.
  cbn. destruct (truthy (returnType f)) eqn:E; [exact E | reflexivity].
Qed.

(** [validate] reads five fields. *)
Lemma validate_fields (f g : FunctionNode) :
  source f = source g -> name f = name g ->
  argumentTypes f = argumentTypes g -> argumentNames f = argumentNames g ->
  output f = output g ->
  validate ext f = validate ext g.
Proof.
  intros Hs Hn Ht Ha Ho. unfold validate. rewrite Hs, Hn, Ht, Ha, Ho. reflexivity.
Qed.

(** An instance that passes [validate] has a source that is not missing. *)
Lemma validate_source (f : FunctionNode) :
  validate ext f = None -> source_missing (source f) = false.
Proof.
  unfold validate, source_missing. destruct (source f) as [|src|]; try discriminate.
  intros H. apply bool_decide_eq_false_2. intros ->.
  rewrite empty_is_no_function in H. discriminate H.
Qed.

(** If [new FunctionNode(source, settings)] returns [U], then
    [new FunctionNode(s.source, s)] for [s = U.toJSON().settings] returns
    too, and the instance it returns has the [name], [constants],
    [constantTypes], [isRootKernel], [isSubKernel], [debug], [output],
    [loopMaxIterations], [argumentNames], [argumentTypes], [argumentSizes]
    and [returnType] of [U]. *)
Theorem toJSON_round_trip (source' : Source) (settings : option Settings) (U : FunctionNode) :
  constructor ext source' settings = Ok U ->
  exists (src : Source) (U' : FunctionNode),
    s_source (toJSON U) = Some src /\
    constructor ext src (Some (toJSON U)) = Ok U' /\
    name U' = name U /\
    constants U' = constants U /\
    constantTypes U' = constantTypes U /\
    isRootKernel U' = isRootKernel U /\
    isSubKernel U' = isSubKernel U /\
    debug U' = debug U /\
    output U' = output U /\
    loopMaxIterations U' = loopMaxIterations U /\
    argumentNames U' = argumentNames U /\
    argumentTypes U' = argumentTypes U /\
    argumentSizes U' = argumentSizes U /\
    returnType U' = returnType U.
Proof.
  unfold constructor at 1. intros H.
  destruct (source_missing source'); [discriminate H|].
  set (f := default_returnType _) in H.
  destruct (validate ext f) eqn:Hv; [discriminate H|].
  injection H as <-.
  assert (Hrt : truthy (returnType f) = true) by apply default_returnType_truthy.
  clearbody f.
  set (g := default_returnType
              (apply_settings (toJSON f) (initial_fields ext (source f) (toJSON f)))).
  assert (Hg : returnType g = returnType f).
  { subst g. cbn. rewrite Hrt. reflexivity. }
  exists (source f), g. split; [reflexivity|]. split.
  - unfold constructor. rewrite (validate_source f Hv).
    change (default no_settings (Some (toJSON f))) with (toJSON f). fold g.
    rewrite (validate_fields g f), Hv by (try reflexivity). reflexivity.
  - repeat split; try reflexivity. exact Hg.
Qed.




End RoundTrip.

(** The round trip of [new FunctionNode(text, { output: [1] })]. *)
Lemma toJSON_round_trip_witness :
  exists (src : Source) (U' : FunctionNode),
    s_source (toJSON Sample.node) = Some src /\
    constructor Sample.ext src (Some (toJSON Sample.node)) = Ok U' /\
    name U' = name Sample.node /\
    constants U' = constants Sample.node /\
    constantTypes U' = constantTypes Sample.node /\
    isRootKernel U' = isRootKernel Sample.node /\
    isSubKernel U' = isSubKernel Sample.node /\
    debug U' = debug Sample.node /\
    output U' = output Sample.node /\
    loopMaxIterations U' = loopMaxIterations Sample.node /\
    argumentNames U' = argumentNames Sample.node /\
    argumentTypes U' = argumentTypes Sample.node /\
    argumentSizes U' = argumentSizes Sample.node /\
    returnType U' = returnType Sample.node.
Proof.
  apply (toJSON_round_trip Sample.ext eq_refl
           (SourceString Sample.text) (Some Sample.settings) Sample.node).
  vm_compute. reflexivity.
Defined.



(** ** The unsafe context of products and quotients *)

Section UnsafeContext.

Variable ext : Externals.

(** In the unsafe context, an expression that never replaces the context
    adds only unsafe dependencies, and does so without an error and
    without touching the instance. *)
Lemma getDependencies_unsafe_context (ast : Ast) :
  unsafe_throughout ast = true ->
  forall (dependencies : list Dependency) (w : World),
  exists added : list Dependency,
    getDependencies ext ast dependencies true w
    = (Ok (DepsArray (dependencies ++ added), dependencies ++ added), w) /\
    Forall (fun d => dep_isSafe d = false) added.
Proof.
  induction ast; intros Hu dependencies w; try discriminate Hu.
  - (* Literal *)
    eexists [_]. split; [reflexivity|]. repeat constructor.
  - (* BinaryExpression *)
    cbn in Hu. apply andb_true_iff in Hu as [Hu Hr]. apply andb_true_iff in Hu as [Hop Hl].
    destruct (IHast1 Hl dependencies w) as (a1 & E1 & F1).
    destruct (IHast2 Hr (dependencies ++ a1) w) as (a2 & E2 & F2).
    exists (a1 ++ a2). split; [|apply Forall_app; split; assumption].
    cbn [getDependencies]. rewrite Hop. unfold bind. rewrite E1. cbn [snd].
    rewrite E2. cbn [snd]. unfold ret. rewrite <- app_assoc. reflexivity.
  - (* Identifier *)
    cbn [getDependencies]. unfold bind, get_this.
    destruct (declarations (this w) !! name0) as [d|].
    + eexists [_]. split; [reflexivity|]. repeat constructor.
    + destruct (bool_decide _).
      * eexists [_]. split; [reflexivity|]. repeat constructor.
      * exists []. rewrite app_nil_r. split; [reflexivity|constructor].
  - (* UpdateExpression *)
    cbn in Hu. cbn [getDependencies]. apply IHast. exact Hu.
Qed.

(** Under a [*] or a [/], operands in which every binary operator on the
    way is again a [*] or a [/] add only dependencies with
    [isSafe = false]: each literal, each declared name and each argument
    read there. *)
Theorem getDependencies_mul_div
    (s : nat) (operator : string) (left' right' : Ast)
    (dependencies : list Dependency) (isNotSafe : bool) (w : World) :
  operator = "*" \/ operator = "/" ->
  unsafe_throughout left' = true ->
  unsafe_throughout right' = true ->
  exists added : list Dependency,
    getDependencies ext (BinaryExpression s operator left' right') dependencies isNotSafe w
    = (Ok (DepsArray (dependencies ++ added), dependencies ++ added), w) /\
    Forall (fun d => dep_isSafe d = false) added.
Proof.
  intros Hop Hl Hr.
  assert (Hflag : bool_decide (operator = "/") || bool_decide (operator = "*") = true).
  { destruct Hop as [-> | ->]; reflexivity. }
  destruct (getDependencies_unsafe_context left' Hl dependencies w) as (a1 & E1 & F1).
  destruct (getDependencies_unsafe_context right' Hr (dependencies ++ a1) w) as (a2 & E2 & F2).
  exists (a1 ++ a2). split; [|apply Forall_app; split; assumption].
  cbn [getDependencies]. rewrite Hflag. unfold bind. rewrite E1. cbn [snd].
  rewrite E2. cbn [snd]. unfold ret. rewrite <- app_assoc. reflexivity.
Qed.

End UnsafeContext.

(** [2 * 3]: both literals are unsafe. *)
Lemma getDependencies_mul_div_witness :
  exists added : list Dependency,
    getDependencies Sample.ext
      (BinaryExpression 0 "*" (Sample.number 2) (Sample.number 3)) [] false Sample.world
    = (Ok (DepsArray ([] ++ added), [] ++ added), Sample.world) /\
    Forall (fun d => dep_isSafe d = false) added.
Proof.
  apply (getDependencies_mul_div Sample.ext 0 "*" (Sample.number 2) (Sample.number 3)
           [] false Sample.world).
  - left. reflexivity.
  - reflexivity.
  - reflexivity.
Defined.

(** For [(1 + 2) * 3] the [+] under the [*] replaces the context, and the
    literals [1] and [2] are recorded as safe. *)
Lemma getDependencies_sum_times :
  let collected :=
    [literal_dependency 1 true; literal_dependency 2 true; literal_dependency 3 false] in
  getDependencies Sample.ext Sample.sum_times [] false Sample.world
  = (Ok (DepsArray collected, collected), Sample.world).
Proof. vm_compute. reflexivity. Qed.

(** A binary expression does not read the context it is analyzed in:
    the flag it hands to its operands is that of its own operator. *)
Lemma getDependencies_binary_ignores_context
    (ext : Externals) (s : nat) (operator : string) (left' right' : Ast)
    (dependencies : list Dependency) (isNotSafe : bool) (w : World) :
  getDependencies ext (BinaryExpression s operator left' right') dependencies isNotSafe w
  = getDependencies ext (BinaryExpression s operator left' right') dependencies false w.
Proof. reflexivity. Qed.

(** C3.  [(1 + 2) * (3 + 4)]: each [+] under the [*] replaces the unsafe
    context by its own, so that all four literals are collected with
    [isSafe = true], the product is judged safe, and [var x] declared
    with it is recorded as safe.  With the context of the [*] handed on,
    as the other cases hand it on, all four would be unsafe. *)
Theorem getDependencies_product_of_sums :
  let collected :=
    [literal_dependency 1 true; literal_dependency 2 true;
     literal_dependency 3 true; literal_dependency 4 true] in
  getDependencies Sample.ext Sample2.product_of_sums [] false Sample.world
  = (Ok (DepsArray collected, collected), Sample.world) /\
  isSafe Sample.ext Sample2.product_of_sums Sample.world = (Ok true, Sample.world) /\
  fst (astGeneric Sample.ext Sample2.var_x 0 Sample.world) = Ok tt /\
  declarations (this (snd (astGeneric Sample.ext Sample2.var_x 0 Sample.world))) !! "x"
  = Some {| decl_type := JStr "Number";
            decl_dependencies := DepsArray collected;
            decl_isSafe := true |}.
Proof. repeat split; vm_compute; reflexivity. Qed.

(** ** Declaration records *)

Lemma keeps_ret {A} (a : A) : keeps_declarations (ret a).
Proof. intros w. reflexivity. Qed.

Lemma keeps_throw {A} (e : exn) : keeps_declarations (@throw A e).
Proof. intros w. reflexivity. Qed.

Lemma keeps_bind {A B} (m : M A) (k : A -> M B) :
  keeps_declarations m -> (forall a, keeps_declarations (k a)) ->
  keeps_declarations (bind m k).
Proof.
  intros Hm Hk w. unfold bind. specialize (Hm w).
  destruct (m w) as [[a|e] w1]; cbn in *; [|exact Hm].
  rewrite (Hk a w1). exact Hm.
Qed.

Lemma keeps_get_this : keeps_declarations get_this.
Proof. intros w. reflexivity. Qed.

Lemma keeps_push (arr : nat) (xs : list Fragment) : keeps_declarations (push arr xs).
Proof. intros w. reflexivity. Qed.

Lemma keeps_new_array (init : list Fragment) : keeps_declarations (new_array init).
Proof. intros w. reflexivity. Qed.

Lemma keeps_join_array (sep : string) (arr : nat) : keeps_declarations (join_array sep arr).
Proof. intros w. reflexivity. Qed.

Lemma keeps_call_hook (text : string) (t : jsstr) : keeps_declarations (call_hook text t).
Proof. intros w. reflexivity. Qed.

Lemma keeps_set_argumentTypes (g : FunctionNode -> list jsstr) :
  keeps_declarations (modify_this (fun f => set_argumentTypes (g f) f)).
Proof. intros w. reflexivity. Qed.

Lemma keeps_field {A} (what : string) (o : option A) : keeps_declarations (field what o).
Proof. destruct o; [apply keeps_ret | apply keeps_throw]. Qed.

Lemma keeps_no_type {A} : keeps_declarations (@no_type A).
Proof. apply keeps_throw. Qed.

Ltac keeps_step :=
  first
    [ apply keeps_ret | apply keeps_throw | apply keeps_get_this | apply keeps_push
    | apply keeps_new_array | apply keeps_join_array | apply keeps_call_hook
    | apply keeps_set_argumentTypes | apply keeps_field | apply keeps_no_type
    | assumption
    | apply keeps_bind; [|intros ?]
    | match goal with
      | |- keeps_declarations (if ?b then _ else _) => destruct b
      | |- keeps_declarations (match ?x with _ => _ end) => destruct x
      end ].

Ltac keeps := repeat keeps_step.

Lemma option_all_Some (P : Ast -> Prop) (a : Ast) : option_all Ast P (Some a) -> P a.
Proof. intros H. inversion H. assumption. Qed.

Lemma list_all_Forall (P : Ast -> Prop) (l : list Ast) : list_all Ast P l -> Forall P l.
Proof. intros H. induction H; constructor; assumption. Qed.

Section DeclarationRecords.

Variable ext : Externals.

Lemma keeps_throw_ast {A} (error : string) (ast : Ast) :
  keeps_declarations (@throw_ast ext A error ast).
Proof. unfold throw_ast. keeps. Qed.

Lemma keeps_getVariableSignature (ast : Ast) : keeps_declarations (getVariableSignature ast).
Proof. unfold getVariableSignature. keeps. Qed.

Lemma keeps_first_binding (i : nat) (l : list (list (option ArgumentBinding))) :
  keeps_declarations (first_binding i l).
Proof. induction l as [|c l IH]; cbn [first_binding]; keeps. Qed.

Lemma keeps_getVariableType (n : jsstr) : keeps_declarations (getVariableType n).
Proof. unfold getVariableType. keeps; try apply keeps_first_binding. Qed.

Lemma keeps_getMemberExpressionDetails (ast : Ast) :
  keeps_declarations (getMemberExpressionDetails ext ast).
Proof.
  unfold getMemberExpressionDetails, constant_details, user_details, object_of, property_of.
  cbv zeta.
  repeat first [ apply keeps_throw_ast | apply keeps_getVariableSignature | apply keeps_getVariableType | keeps_step ].
Qed.

Lemma keeps_getType (ast : Ast) : keeps_declarations (getType ext ast).
Proof.
  induction ast; cbn [getType]; unfold object_of, property_of; cbv zeta;
    repeat first [ apply keeps_throw_ast | apply keeps_getVariableSignature | apply keeps_getVariableType | keeps_step ].
  - apply (option_all_Some _ _ H).
  - apply list_all_Forall in H.
    induction H as [|a l Ha Hl IH]; [apply keeps_no_type|].
    destruct l; [exact Ha | exact IH].
  - apply list_all_Forall in H. inversion H. assumption.
Qed.

Lemma keeps_getDependencies_deep (ast : Ast) :
  keeps_dependencies ext ast /\
  match ast with
  | BlockStatement _ body => Forall (keeps_dependencies ext) body
  | _ => True
  end.
Proof.
  induction ast; (split; [intros deps flag|try exact I]); cbn [getDependencies]; cbv zeta;
    repeat first [ apply keeps_throw_ast | apply keeps_getMemberExpressionDetails | keeps_step ].
  - (* FunctionDeclaration: the last statement of the body *)
    destruct IHast as [_ Hbody].
    induction Hbody as [|a l Ha Hl IH]; [apply keeps_ret|].
    destruct l; [apply Ha | exact IH].
  - (* ReturnStatement *)
    apply (option_all_Some _ _ H).
  - apply IHast1.
  - apply IHast2.
  - (* BlockStatement: its statements *)
    apply list_all_Forall in H. eapply Forall_impl; [exact H|]. intros a Ha. apply Ha.
  - (* VariableDeclaration *)
    apply list_all_Forall in H. revert deps.
    induction H as [|a l Ha Hl IH]; intros deps; [apply keeps_ret|].
    apply keeps_bind; [apply Ha | intros r; apply IH].
  - (* VariableDeclarator *)
    apply (option_all_Some _ _ H).
  - apply IHast.
Qed.

Lemma keeps_getDependencies (ast : Ast) (deps : list Dependency) (flag : bool) :
  keeps_declarations (getDependencies ext ast deps flag).
Proof. apply keeps_getDependencies_deep. Qed.

Lemma stores_keeps {A} (m : M A) : keeps_declarations m -> stores_well m.
Proof. intros H w n r Hr. left. rewrite <- (H w). exact Hr. Qed.

Lemma stores_bind {A B} (m : M A) (k : A -> M B) :
  stores_well m -> (forall a, stores_well (k a)) -> stores_well (bind m k).
Proof.
  intros Hm Hk w. unfold bind. specialize (Hm w).
  destruct (m w) as [[a|e] w1]; cbn in *; [|exact Hm].
  intros n r Hr. destruct (Hk a w1 n r Hr) as [Hkept|Hmade]; [|right; exact Hmade].
  apply Hm. exact Hkept.
Qed.

Lemma stores_insert (key : string) (r : Declaration) :
  made_by_first r \/ made_by_later r ->
  stores_well (modify_this (fun f => set_declarations (<[key := r]> (declarations f)) f)).
Proof.
  intros Hr w n r' Hn. cbn in Hn.
  destruct (decide (key = n)) as [->|Hne].
  - rewrite lookup_insert_eq in Hn. injection Hn as <-. right. exact Hr.
  - rewrite lookup_insert_ne in Hn by exact Hne. left. exact Hn.
Qed.

Section Walk.

Variable walk : Ast -> nat -> M unit.

Lemma stores_walk_array (l : list Ast) (retArr : nat) :
  Forall (walks_well walk) l -> stores_well (walk_array walk l retArr).
Proof.
  induction 1 as [|a l Ha Hl IH]; cbn [walk_array]; [apply stores_keeps, keeps_ret|].
  apply stores_bind; [apply Ha | intros _; exact IH].
Qed.

Lemma stores_sequence_loop (expressions turns : list Ast) (first : bool) (retArr : nat) :
  Forall (walks_well walk) expressions ->
  stores_well (sequence_loop walk expressions turns first retArr).
Proof.
  intros H. revert first. induction turns as [|t turns IH]; intros first; cbn [sequence_loop].
  - apply stores_keeps, keeps_ret.
  - apply stores_bind; [destruct first; apply stores_keeps; keeps_step|intros _].
    apply stores_bind; [apply stores_walk_array; exact H | intros _; apply IH].
Qed.

Lemma stores_declared_type (varDecNode init : Ast) :
  stores_well (declared_type ext varDecNode init).
Proof.
  apply stores_keeps. unfold declared_type. cbv zeta.
  repeat first [ apply keeps_throw_ast | apply keeps_getType | keeps_step ].
Qed.

Lemma stores_later_declarations (type : jsstr) (l : list Ast) (result : nat) :
  Forall (walks_well walk) l -> stores_well (later_declarations ext walk type l result).
Proof.
  induction 1 as [|a l Ha Hl IH]; cbn [later_declarations]; [apply stores_keeps, keeps_ret|].
  apply stores_bind; [apply stores_keeps, keeps_getDependencies|intros deps].
  apply stores_bind; [apply stores_keeps, keeps_field|intros id].
  apply stores_bind; [apply stores_insert; right; reflexivity|intros _].
  apply stores_bind; [apply Ha | intros _; exact IH].
Qed.

End Walk.

Lemma astGeneric_stores_well_deep (ast : Ast) :
  walker_stores_well ext ast /\
  match ast with
  | VariableDeclarator _ _ (Some init) => walker_stores_well ext init
  | _ => True
  end.
Proof.
  induction ast; (split; [intros retArr|try exact I]); cbn [astGeneric].
  all: try (apply stores_keeps;
            first [ apply keeps_ret | apply keeps_push | apply keeps_throw_ast ]).
  - (* FunctionDeclaration *)
    apply stores_keeps. unfold astFunctionDeclaration. cbv zeta.
    repeat first [ apply keeps_getType | keeps_step ].
  - (* ExpressionStatement *)
    cbn [astExpressionStatement]. destruct IHast as [IH _].
    apply stores_bind; [apply IH | intros _; apply stores_keeps, keeps_push].
  - (* VariableDeclaration *)
    apply list_all_Forall in H.
    match goal with |- context [VariableDeclaration _ ?l] => rename l into declarators end.
    assert (Hwalk : Forall (walks_well (astGeneric ext)) declarators).
    { eapply Forall_impl; [exact H|]. intros a [Ha _]. exact Ha. }
    cbn [astVariableDeclaration].
    destruct declarators as [|d rest]; [apply stores_keeps, keeps_throw_ast|].
    apply Forall_cons in H as [[_ Hd] _]. apply Forall_cons in Hwalk as [_ Hrest].
    destruct d; try (apply stores_keeps, keeps_throw_ast).
    + (* a [ForStatement] in the place of a declarator *)
      destruct init; [|apply stores_keeps, keeps_throw_ast].
      apply stores_bind; [apply stores_keeps, keeps_new_array|intros result].
      apply stores_bind; [apply stores_declared_type|intros type].
      apply stores_bind; [apply stores_keeps, keeps_getDependencies|intros deps].
      apply stores_keeps, keeps_throw.
    + destruct init as [init|]; [|apply stores_keeps, keeps_throw_ast].
      apply stores_bind; [apply stores_keeps, keeps_new_array|intros result].
      apply stores_bind; [apply stores_declared_type|intros type].
      apply stores_bind; [apply stores_keeps, keeps_getDependencies|intros deps].
      apply stores_bind.
      { destruct (fst deps) as [l| |t]; try (apply stores_keeps, keeps_throw).
        apply stores_insert. left. exists l. split; reflexivity. }
      intros _.
      apply stores_bind; [apply stores_keeps, keeps_new_array|intros initResult].
      apply stores_bind; [apply Hd|intros _].
      apply stores_bind; [apply stores_keeps, keeps_join_array|intros text].
      apply stores_bind; [apply stores_keeps, keeps_push|intros _].
      apply stores_bind; [apply stores_later_declarations; exact Hrest|intros _].
      apply stores_bind; [apply stores_keeps, keeps_join_array|intros joined].
      apply stores_bind; [apply stores_keeps, keeps_push|intros _].
      apply stores_keeps, keeps_push.
  - (* VariableDeclarator *)
    cbn [astVariableDeclarator]. destruct IHast as [IH _].
    apply stores_bind; [apply IH|intros _].
    destruct init as [init|]; [|apply stores_keeps, keeps_ret].
    apply option_all_Some in H. destruct H as [Hinit _].
    apply stores_bind; [apply stores_keeps, keeps_push|intros _]. apply Hinit.
  - (* ... and its initializer *)
    destruct init as [init|]; [|exact I].
    apply option_all_Some in H. apply H.
  - (* SequenceExpression *)
    cbn [astSequenceExpression]. apply stores_sequence_loop.
    apply list_all_Forall in H. eapply Forall_impl; [exact H|]. intros a [Ha _]. exact Ha.
  - (* UnaryExpression *)
    cbn [astUnaryExpression]. destruct IHast as [IH _].
    destruct prefix0; (apply stores_bind; [|intros _]);
      first [ apply IH | apply stores_keeps, keeps_push ].
  - (* UpdateExpression *)
    cbn [astUpdateExpression]. destruct IHast as [IH _].
    destruct prefix0; (apply stores_bind; [|intros _]);
      first [ apply IH | apply stores_keeps, keeps_push ].
  - (* LogicalExpression *)
    cbn [astLogicalExpression]. destruct IHast1 as [IH1 _], IHast2 as [IH2 _].
    repeat (apply stores_bind; [|intros _]);
      first [ apply IH1 | apply IH2 | apply stores_keeps, keeps_push ].
  - (* ConditionalExpression *)
    cbn [astConditionalExpression].
    destruct IHast1 as [IH1 _], IHast2 as [IH2 _], IHast3 as [IH3 _].
    repeat (apply stores_bind; [|intros _]);
      first [ apply IH1 | apply IH2 | apply IH3 | apply stores_keeps, keeps_push ].
Qed.


Lemma bind_Ok {A B} (m : M A) (k : A -> M B) (w w' : World) (b : B) :
  bind m k w = (Ok b, w') ->
  exists a w1, m w = (Ok a, w1) /\ k a w1 = (Ok b, w').
Proof.
  unfold bind. destruct (m w) as [[a|e] w1]; [|discriminate].
  intros H. exists a, w1. split; [reflexivity | exact H].
Qed.

Lemma keeps_walk_array (walk : Ast -> nat -> M unit) (l : list Ast) (retArr : nat) :
  Forall (fun a => forall r, keeps_declarations (walk a r)) l ->
  keeps_declarations (walk_array walk l retArr).
Proof.
  induction 1 as [|a l Ha Hl IH]; cbn [walk_array]; [apply keeps_ret|].
  apply keeps_bind; [apply Ha | intros _; exact IH].
Qed.

Lemma keeps_sequence_loop (walk : Ast -> nat -> M unit)
    (expressions turns : list Ast) (first : bool) (retArr : nat) :
  Forall (fun a => forall r, keeps_declarations (walk a r)) expressions ->
  keeps_declarations (sequence_loop walk expressions turns first retArr).
Proof.
  intros H. revert first. induction turns as [|t turns IH]; intros first; cbn [sequence_loop].
  - apply keeps_ret.
  - apply keeps_bind; [destruct first; keeps_step|intros _].
    apply keeps_bind; [apply keeps_walk_array; exact H | intros _; apply IH].
Qed.

Lemma astGeneric_keeps (ast : Ast) :
  declaration_free ast = true ->
  forall retArr, keeps_declarations (astGeneric ext ast retArr).
Proof.
  induction ast; intros Hfree retArr; try discriminate Hfree; cbn [astGeneric];
    try (first [ apply keeps_ret | apply keeps_push | apply keeps_throw_ast ]);
    cbn in Hfree.
  - (* FunctionDeclaration *)
    unfold astFunctionDeclaration. cbv zeta.
    repeat first [ apply keeps_getType | keeps_step ].
  - (* ExpressionStatement *)
    cbn [astExpressionStatement].
    apply keeps_bind; [apply IHast; exact Hfree | intros _; apply keeps_push].
  - (* VariableDeclarator *)
    apply andb_true_iff in Hfree as [Hid Hinit].
    cbn [astVariableDeclarator].
    apply keeps_bind; [apply IHast; exact Hid|intros _].
    destruct init as [init|]; [|apply keeps_ret].
    apply option_all_Some in H.
    apply keeps_bind; [apply keeps_push|intros _]. apply H. exact Hinit.
  - (* SequenceExpression *)
    cbn [astSequenceExpression]. apply keeps_sequence_loop.
    apply list_all_Forall in H. rewrite forallb_forall in Hfree.
    rewrite Forall_forall in H. apply Forall_forall. intros a Ha r.
    apply H; [exact Ha|]. apply Hfree. apply list_elem_of_In. exact Ha.
  - (* UnaryExpression *)
    cbn [astUnaryExpression].
    destruct prefix0; (apply keeps_bind; [|intros _]);
      first [ apply IHast; exact Hfree | apply keeps_push ].
  - (* UpdateExpression *)
    cbn [astUpdateExpression].
    destruct prefix0; (apply keeps_bind; [|intros _]);
      first [ apply IHast; exact Hfree | apply keeps_push ].
  - (* LogicalExpression *)
    apply andb_true_iff in Hfree as [H1 H2]. cbn [astLogicalExpression].
    repeat (apply keeps_bind; [|intros _]);
      first [ apply IHast1; exact H1 | apply IHast2; exact H2 | apply keeps_push ].
  - (* ConditionalExpression *)
    apply andb_true_iff in Hfree as [Hfree H3]. apply andb_true_iff in Hfree as [H1 H2].
    cbn [astConditionalExpression].
    repeat (apply keeps_bind; [|intros _]);
      first [ apply IHast1; exact H1 | apply IHast2; exact H2 | apply IHast3; exact H3
            | apply keeps_push ].
Qed.

Lemma later_declarations_records (type : jsstr) (rest : list Ast) (result : nat) :
  Forall (fun d => declaration_free d = true) rest ->
  forall w w',
  later_declarations ext (astGeneric ext) type rest result w = (Ok tt, w') ->
  (forall n, n ∉ map declarator_key rest ->
     declarations (this w') !! n = declarations (this w) !! n) /\
  (forall n, n ∈ map declarator_key rest ->
     exists r, declarations (this w') !! n = Some r /\ decl_isSafe r = false).
Proof.
  induction 1 as [|d rest Hd Hrest IH]; intros w w' Hrun; cbn [later_declarations] in Hrun.
  - injection Hrun as <-. split; [reflexivity|]. intros n Hn. cbn in Hn. inversion Hn.
  - apply bind_Ok in Hrun as (deps & w1 & Hdeps & Hrun).
    apply bind_Ok in Hrun as (id & w2 & Hid & Hrun).
    apply bind_Ok in Hrun as ([] & w3 & Hstore & Hrun).
    apply bind_Ok in Hrun as ([] & w4 & Hwalk & Hrun).
    destruct (IH _ _ Hrun) as [Hother Hlater].
    assert (E1 : declarations (this w1) = declarations (this w)).
    { pose proof (keeps_getDependencies d [] false w) as K. rewrite Hdeps in K. exact K. }
    assert (Ekey : declarator_key d = to_key (ast_name id) /\ w2 = w1).
    { unfold declarator_key. destruct (ast_id d) as [i|]; cbn in Hid; [|discriminate].
      injection Hid as -> ->. split; reflexivity. }
    destruct Ekey as [Ekey ->].
    assert (E4 : declarations (this w4) = declarations (this w3)).
    { pose proof (astGeneric_keeps d Hd result w3) as K. rewrite Hwalk in K. exact K. }
    injection Hstore as <-. cbn [this declarations set_declarations] in E4.
    split.
    + intros n Hn. cbn [map] in Hn. apply not_elem_of_cons in Hn as [Hne Hn].
      rewrite (Hother n Hn), E4, lookup_insert_ne, E1 by (rewrite <- Ekey; congruence).
      reflexivity.
    + intros n Hn. destruct (decide (n ∈ map declarator_key rest)) as [Hin|Hout].
      * apply Hlater. exact Hin.
      * cbn [map] in Hn. apply elem_of_cons in Hn as [->|Hn]; [|contradiction].
        rewrite (Hother _ Hout), E4, Ekey, lookup_insert_eq.
        eexists. split; reflexivity.
Qed.

Lemma astVariableDeclaration_records
    (s s0 : nat) (id init : Ast) (rest : list Ast) (retArr : nat) (w w' : World) :
  declaration_free init = true ->
  Forall (fun d => declaration_free d = true) rest ->
  astGeneric ext (VariableDeclaration s (VariableDeclarator s0 id (Some init) :: rest)) retArr w
  = (Ok tt, w') ->
  (to_key (ast_name id) ∉ map declarator_key rest ->
     exists r l, declarations (this w') !! to_key (ast_name id) = Some r /\
       decl_dependencies r = DepsArray l /\ decl_isSafe r = forallb dep_isSafe l) /\
  (forall n, n ∈ map declarator_key rest ->
     exists r, declarations (this w') !! n = Some r /\ decl_isSafe r = false).
Proof.
  intros Hinit Hrest Hrun. cbn [astGeneric astVariableDeclaration] in Hrun.
  apply bind_Ok in Hrun as (result & w1 & _ & Hrun).
  apply bind_Ok in Hrun as (type & w2 & _ & Hrun).
  apply bind_Ok in Hrun as (deps & w3 & _ & Hrun).
  apply bind_Ok in Hrun as ([] & w4 & Hstore & Hrun).
  apply bind_Ok in Hrun as (initResult & w5 & Hnew & Hrun).
  apply bind_Ok in Hrun as ([] & w6 & Hwalk & Hrun).
  apply bind_Ok in Hrun as (text & w7 & Hjoin & Hrun).
  apply bind_Ok in Hrun as ([] & w8 & Hpush & Hrun).
  apply bind_Ok in Hrun as ([] & w9 & Hlater & Hrun).
  apply bind_Ok in Hrun as (joined & w10 & Hjoin' & Hrun).
  apply bind_Ok in Hrun as ([] & w11 & Hpush' & Hrun).
  assert (E : declarations (this w') = declarations (this w9)).
  { injection Hjoin' as _ <-. injection Hpush' as <-. injection Hrun as <-. reflexivity. }
  assert (E8 : declarations (this w8) = declarations (this w4)).
  { pose proof (astGeneric_keeps init Hinit initResult w5) as K. rewrite Hwalk in K.
    injection Hnew as _ <-. injection Hjoin as _ <-. injection Hpush as <-.
    exact K. }
  destruct (later_declarations_records _ _ _ Hrest _ _ Hlater) as [Hother Hlate].
  rewrite E. split; [|exact Hlate].
  intros Hfresh. rewrite (Hother _ Hfresh), E8.
  destruct (fst deps) as [l| |t]; try discriminate Hstore.
  injection Hstore as <-. cbn [this declarations set_declarations].
  rewrite lookup_insert_eq. eexists _, l. repeat split.
Qed.

End DeclarationRecords.

(** C1, as amended.  Whatever the walker visits, every record of the
    declaration table afterwards was there before or was made in one of
    two ways: with [isSafe] equal to the conjunction of the [isSafe] of its
    dependencies, or with [isSafe = false].  And when the handler of a
    variable declaration returns (its declarators holding no further
    declaration), the record of a first declarator that no later
    declarator names again has [isSafe] equal to the conjunction of the
    [isSafe] of its dependencies, while the record of every later
    declarator has [isSafe = false]. *)
Theorem declaration_records (ext : Externals) :
  (forall (ast : Ast) (retArr : nat) (w : World),
     records_kept_or_made w (snd (astGeneric ext ast retArr w))) /\
  (forall (s s0 : nat) (id init : Ast) (rest : list Ast) (retArr : nat) (w w' : World),
     declaration_free init = true ->
     Forall (fun d => declaration_free d = true) rest ->
     astGeneric ext
       (VariableDeclaration s (VariableDeclarator s0 id (Some init) :: rest)) retArr w
     = (Ok tt, w') ->
     (to_key (ast_name id) ∉ map declarator_key rest ->
        exists r l, declarations (this w') !! to_key (ast_name id) = Some r /\
          decl_dependencies r = DepsArray l /\ decl_isSafe r = forallb dep_isSafe l) /\
     (forall n, n ∈ map declarator_key rest ->
        exists r, declarations (this w') !! n = Some r /\ decl_isSafe r = false)).
Proof.
  split.
  - intros ast retArr w. apply astGeneric_stores_well_deep.
  - intros s s0 id init rest retArr w w'. apply astVariableDeclaration_records.
Qed.

(** [var a = 1, b = 2;] *)
Lemma declaration_records_witness :
  let w' := snd (astGeneric Sample.ext Sample.var_a_b 0 Sample.world) in
  (exists r l, declarations (this w') !! "a" = Some r /\
     decl_dependencies r = DepsArray l /\ decl_isSafe r = forallb dep_isSafe l) /\
  (exists r, declarations (this w') !! "b" = Some r /\ decl_isSafe r = false).
Proof.
  intros w'.
  destruct (proj2 (declaration_records Sample.ext)
              0 0 (Identifier 0 "a") (Sample.number 1)
              [VariableDeclarator 0 (Identifier 0 "b") (Some (Sample.number 2))]
              0 Sample.world w')
    as [Hfirst Hlater].
  - reflexivity.
  - repeat constructor.
  - vm_compute. reflexivity.
  - split.
    + apply Hfirst. cbn. intros H. apply list_elem_of_singleton in H. discriminate H.
    + apply (Hlater "b"). cbn. apply list_elem_of_here.
Defined.

(** C1, as stated, fails for [var a = 1, b = 2;]: the record of [b] has
    [isSafe = false] although its one dependency, the literal [2], is
    safe. *)
Lemma var_a_b_record_of_b :
  exists w',
    astGeneric Sample.ext Sample.var_a_b 0 Sample.world = (Ok tt, w') /\
    declarations (this w') !! "b"
    = Some {| decl_type := JStr "Number";
              decl_dependencies := DepsArray [literal_dependency 2 true];
              decl_isSafe := false |} /\
    forallb dep_isSafe [literal_dependency 2 true] = true.
Proof.
  eexists. split; [vm_compute; reflexivity|]. split; vm_compute; reflexivity.
Qed.

(** * Further properties *)

(** ** Pushing and popping a state *)

Lemma with_this_same (w : World) : with_this (this w) w = w.
Proof. destruct w. reflexivity. Qed.

Lemma set_argumentTypes_same (f : FunctionNode) : set_argumentTypes (argumentTypes f) f = f.
Proof. destruct f. reflexivity. Qed.

Lemma set_declarations_same (f : FunctionNode) : set_declarations (declarations f) f = f.
Proof. destruct f. reflexivity. Qed.

(** [pushState(label)] followed by [popState(label)] never throws and
    leaves the instance, its stack of states included, as it was. *)
Theorem pushState_popState (label : string) (w : World) :
  (pushState label ;; popState label) w = (Ok tt, w).
Proof.
  unfold pushState, popState, bind, modify_this, get_this. cbn.
  unfold state. cbn. rewrite last_snoc.
  rewrite bool_decide_eq_true_2 by reflexivity. cbn.
  rewrite removelast_last.
  destruct w as [f a h]. destruct f. reflexivity.
Qed.

(** ** Internal variable names *)

Lemma issue_from (k : nat) (name' : string) :
  name' <> "__proto__" -> name' <> "hasOwnProperty" ->
  forall (names : gmap string nat),
  names !! "hasOwnProperty" = None ->
  issue k name' names
  = Ok (map (internal_name name') (seq (S (default 0 (names !! name'))) k),
        if bool_decide (k = 0) then names
        else <[name' := default 0 (names !! name') + k]> names).
Proof.
  intros Hp Hh. induction k as [|k IH]; intros names Hnone; [reflexivity|].
  cbn [issue]. unfold getInternalVariableName.
  rewrite bool_decide_eq_false_2 by (rewrite Hnone; intros [? ?]; discriminate).
  rewrite bool_decide_eq_false_2 by exact Hp. cbv zeta.
  rewrite IH by (rewrite lookup_insert_ne by congruence; exact Hnone).
  rewrite lookup_insert_eq. cbn [default seq map].
  set (c := default 0 (names !! name')).
  rewrite (bool_decide_eq_false_2 (S k = 0)) by discriminate.
  change (if bool_decide (S c = 1) then name' else name' +:+ pretty (S c))
    with (internal_name name' (S c)).
  f_equal. f_equal.
  destruct k as [|k].
  - rewrite bool_decide_eq_true_2 by reflexivity. f_equal. lia.
  - rewrite bool_decide_eq_false_2 by discriminate.
    rewrite insert_insert_eq. f_equal. unfold id. lia.
Qed.

(** Asked [k + 1] times in a row for the same name, a fresh instance
    answers the name itself and then the name followed by 2, 3, ...,
    [k + 1]; the counter of the name ends at [k + 1].  (The names
    ['__proto__'] and ['hasOwnProperty'] behave otherwise.) *)
Theorem getInternalVariableName_sequence (k : nat) (name' : string) :
  name' <> "__proto__" -> name' <> "hasOwnProperty" ->
  issue (S k) name' ∅
  = Ok (name' :: map (fun i => name' +:+ pretty i) (seq 2 k), {[ name' := S k ]}).
Proof.
  intros Hp Hh. rewrite (issue_from (S k) name' Hp Hh ∅) by apply lookup_empty.
  rewrite lookup_empty, bool_decide_eq_false_2 by discriminate.
  cbn [default from_option id seq map Nat.add].
  replace (map (internal_name name') (seq 2 k))
    with (map (fun i => name' +:+ pretty i) (seq 2 k)).
  - rewrite insert_empty. reflexivity.
  - apply map_ext_in. intros i Hi. apply in_seq in Hi.
    unfold internal_name. rewrite bool_decide_eq_false_2 by lia. reflexivity.
Qed.

Lemma getInternalVariableName_sequence_witness :
  issue 3 "i" ∅
  = Ok ("i" :: map (fun i => "i" +:+ pretty i) (seq 2 2), {[ "i" := 3 ]}).
Proof. apply (getInternalVariableName_sequence 2 "i"); discriminate. Defined.

Lemma append_2_last (n t : string) (c : Ascii.ascii) :
  String.get (String.length t - 1) t = Some c -> c <> Ascii.ascii_of_nat 50 ->
  n +:+ "2" <> t.
Proof.
  intros Hc Hne E. subst t. rewrite length_append in Hc. cbn [String.length] in Hc.
  replace (String.length n + 1 - 1) with (0 + String.length n) in Hc by lia.
  rewrite <- String.append_correct2 in Hc. cbn in Hc.
  injection Hc as <-. apply Hne. reflexivity.
Qed.

(** The identifiers handed out are not all different: after two requests
    for a name [n], the second answered [n2], a first request for the name
    [n2] is answered [n2] as well. *)
Theorem getInternalVariableName_collision (name' : string) :
  name' <> "__proto__" -> name' <> "hasOwnProperty" ->
  let names1 : gmap string nat := <[name' := 1]> ∅ in
  let names2 : gmap string nat := <[name' := 2]> names1 in
  getInternalVariableName name' ∅ = Ok (name', names1) /\
  getInternalVariableName name' names1 = Ok (name' +:+ "2", names2) /\
  getInternalVariableName (name' +:+ "2") names2
  = Ok (name' +:+ "2", <[name' +:+ "2" := 1]> names2).
Proof.
  intros Hp Hh names1 names2.
  assert (Hp2 : name' +:+ "2" <> "__proto__")
    by (eapply append_2_last; [reflexivity | discriminate]).
  assert (Hh2 : name' +:+ "2" <> "hasOwnProperty")
    by (eapply append_2_last; [reflexivity | discriminate]).
  assert (Hne : name' <> name' +:+ "2").
  { intros E. apply (f_equal String.length) in E. rewrite length_append in E. cbn in E. lia. }
  unfold getInternalVariableName, names2, names1.
  split; [|split].
  - rewrite lookup_empty.
    rewrite bool_decide_eq_false_2 by (intros [? ?]; discriminate).
    rewrite bool_decide_eq_false_2 by exact Hp. reflexivity.
  - rewrite lookup_insert_ne by congruence. rewrite lookup_empty.
    rewrite bool_decide_eq_false_2 by (intros [? ?]; discriminate).
    rewrite bool_decide_eq_false_2 by exact Hp.
    rewrite lookup_insert_eq. reflexivity.
  - rewrite !lookup_insert_ne by congruence. rewrite lookup_empty.
    rewrite bool_decide_eq_false_2 by (intros [? ?]; discriminate).
    rewrite bool_decide_eq_false_2 by exact Hp2. reflexivity.
Qed.

Lemma getInternalVariableName_collision_witness :
  let names1 : gmap string nat := <["i" := 1]> ∅ in
  let names2 : gmap string nat := <["i" := 2]> names1 in
  getInternalVariableName "i" ∅ = Ok ("i", names1) /\
  getInternalVariableName "i" names1 = Ok ("i" +:+ "2", names2) /\
  getInternalVariableName ("i" +:+ "2") names2
  = Ok ("i" +:+ "2", <["i" +:+ "2" := 1]> names2).
Proof. apply (getInternalVariableName_collision "i"); discriminate. Defined.

(** ** Types of constants and of variables *)

(** [getConstantType] never answers ['Float']. *)
Theorem getConstantType_never_Float (constantName : jsstr) (f : FunctionNode) :
  getConstantType constantName f <> JStr "Float".
Proof.
  unfold getConstantType.
  destruct (constantTypes f !! to_key constantName) as [t|]; [|discriminate].
  destruct (truthy (JStr t)); [|discriminate].
  case_bool_decide; [discriminate|congruence].
Qed.

Lemma array_set_lookup (i : nat) (v : jsstr) (l : list jsstr) :
  array_set i v l !! i = Some v.
Proof.
  unfold array_set. case_decide as H.
  - apply list_lookup_insert_eq. exact H.
  - rewrite lookup_app_r by lia. rewrite lookup_app_r by (rewrite length_replicate; lia).
    rewrite length_replicate. replace (i - length l - (i - length l)) with 0 by lia.
    reflexivity.
Qed.

Lemma array_set_again (i : nat) (v : jsstr) (l : list jsstr) :
  array_set i v (array_set i v l) = array_set i v l.
Proof.
  unfold array_set at 1. pose proof (array_set_lookup i v l) as H.
  rewrite decide_True by (apply lookup_lt_Some in H; exact H).
  apply list_insert_id. exact H.
Qed.

Lemma first_binding_pure (i : nat) (l : list (list (option ArgumentBinding))) (w w' : World) :
  first_binding i l w' = (fst (first_binding i l w), w').
Proof.
  induction l as [|c l IH]; [reflexivity|].
  cbn [first_binding]. unfold bind, field.
  destruct (c !! i) as [[b|]|]; cbn; try reflexivity.
  exact IH.
Qed.

(** Asking for the type of a variable a second time gives the same
    answer and changes nothing more: whatever the first call wrote to
    [argumentTypes] is what the second call finds or writes again. *)
Theorem getVariableType_idempotent (name' : jsstr) (w w' : World) (type : jsstr) :
  getVariableType name' w = (Ok type, w') ->
  getVariableType name' w' = (Ok type, w').
Proof.
  unfold getVariableType, bind, get_this.
  destruct (indexOf (argumentNames (this w)) name') as [i|] eqn:Hi.
  - destruct (truthy (default JUndefined (argumentTypes (this w) !! i))) eqn:Ht.
    + intros H. injection H as <- <-. rewrite Hi, Ht. reflexivity.
    + destruct (parent (this w)) as [p|] eqn:Hp.
      * destruct (parent_calledFunctionsArguments p !! to_key (name (this w)))
          as [cfa|] eqn:Hc; cbn [field]; [|discriminate].
        unfold ret at 1. rewrite (first_binding_pure i cfa w w).
        destruct (fst (first_binding i cfa w)) as [[t|]|e] eqn:Hfb; try discriminate.
        -- unfold modify_this, ret. intros H. injection H as <- <-. cbn.
           rewrite Hi, array_set_lookup. cbn [default from_option id].
           destruct (truthy t); [reflexivity|].
           rewrite Hp, Hc. cbn [field]. unfold ret at 1.
           rewrite (first_binding_pure i cfa w), Hfb. cbn.
           rewrite array_set_again. reflexivity.
        -- intros H. injection H as <- <-. rewrite Hi, Ht, Hp, Hc. cbn [field].
           unfold ret at 1. rewrite (first_binding_pure i cfa w w), Hfb. reflexivity.
      * intros H. injection H as <- <-. rewrite Hi, Ht, Hp. reflexivity.
  - destruct (declarations (this w) !! to_key name') as [d|] eqn:Hd;
      intros H; injection H as <- <-; rewrite Hi, Hd; reflexivity.
Qed.

Lemma getVariableType_idempotent_witness :
  let w' := snd (getVariableType (JStr "a") Sample2.sub_world) in
  getVariableType (JStr "a") w' = (Ok (JStr "Array"), w').
Proof.
  intros w'.
  apply (getVariableType_idempotent (JStr "a") Sample2.sub_world).
  vm_compute. reflexivity.
Defined.




(** An argument that [isInput] says is an input has the type ['Input']
    for [getVariableType], which then changes nothing. *)
Theorem isInput_type (n : string) (w : World) :
  isInput (JStr n) (this w) = true ->
  getVariableType (JStr n) w = (Ok (JStr "Input"), w).
Proof.
  unfold isInput, getVariableType, bind, get_this.
  destruct (indexOf (argumentNames (this w)) (JStr n)) as [i|]; [|discriminate].
  intros H. apply bool_decide_eq_true_1 in H. rewrite H. reflexivity.
Qed.

Lemma isInput_type_witness :
  getVariableType (JStr "b") Sample2.typed_world = (Ok (JStr "Input"), Sample2.typed_world).
Proof. apply (isInput_type "b" Sample2.typed_world). reflexivity. Defined.

(** ** User argument names *)

Lemma user_binding_skips (i : nat) (skipped rest : list (list (option ArgumentBinding)))
    (call : list (option ArgumentBinding)) (b : ArgumentBinding) :
  Forall (fun c => forall b', c !! i = Some (Some b') -> is_scalar_type (arg_type b') = true)
         skipped ->
  call !! i = Some (Some b) ->
  is_scalar_type (arg_type b) = false ->
  user_binding i (skipped ++ call :: rest) = arg_name b.
Proof.
  intros Hs Hc Hb. unfold is_scalar_type in Hb.
  induction Hs as [|c l Hcn Hl IH]; cbn [app user_binding].
  - rewrite Hc. rewrite <- !negb_orb, Hb. reflexivity.
  - destruct (c !! i) as [[b'|]|]; try exact IH.
    specialize (Hcn b' eq_refl). unfold is_scalar_type in Hcn.
    rewrite <- !negb_orb, Hcn. exact IH.
Qed.

(** The user's name for an argument of a sub-kernel is the name bound at
    the argument's index in the first recorded call whose binding there
    is present and is not an ['Integer'], a ['LiteralInteger'] or a
    ['Number']: calls with [null] or with a number at that index are
    passed over.  The instance is only read. *)
Theorem getUserArgumentName_first_passed
    (n : jsstr) (f : FunctionNode) (i : nat) (p : ParentNode)
    (skipped rest : list (list (option ArgumentBinding)))
    (call : list (option ArgumentBinding)) (b : ArgumentBinding) :
  indexOf (argumentNames f) n = Some i ->
  parent f = Some p ->
  isRootKernel f = false ->
  parent_calledFunctionsArguments p !! to_key (name f) = Some (skipped ++ call :: rest) ->
  Forall (fun c => forall b', c !! i = Some (Some b') -> is_scalar_type (arg_type b') = true)
         skipped ->
  call !! i = Some (Some b) ->
  is_scalar_type (arg_type b) = false ->
  getUserArgumentName n f = Ok (arg_name b).
Proof.
  intros Hi Hp Hr Hc Hs Hb Hsc. unfold getUserArgumentName.
  rewrite Hi, Hp, Hr, Hc. f_equal. apply user_binding_skips; assumption.
Qed.

Lemma getUserArgumentName_first_passed_witness :
  getUserArgumentName (JStr "a") Sample2.sub_node = Ok (JStr "v").
Proof.
  apply (getUserArgumentName_first_passed (JStr "a") Sample2.sub_node 0 Sample2.parent_node
           [[None; Some {| arg_type := JStr "Number"; arg_name := JStr "x" |}]] []
           [Some {| arg_type := JStr "Array"; arg_name := JStr "v" |}; None]
           {| arg_type := JStr "Array"; arg_name := JStr "v" |}).
  - reflexivity.
  - reflexivity.
  - reflexivity.
  - reflexivity.
  - constructor; [|constructor]. intros b' H. discriminate H.
  - reflexivity.
  - reflexivity.
Defined.

(** ** What the constructor guarantees *)

Section Construction.

Variable ext : Externals.

(** An instance that the constructor returns has a source text that is
    a function, a name, either no argument types or as many as argument
    names, an output of at least one dimension and a return type. *)
Theorem constructor_invariants (source' : Source) (settings : option Settings)
    (U : FunctionNode) :
  constructor ext source' settings = Ok U ->
  (exists src, source U = SourceString src /\ utils_isFunctionString ext src = true) /\
  truthy (name U) = true /\
  (length (argumentTypes U) = 0 \/ length (argumentTypes U) = length (argumentNames U)) /\
  1 <= length (output U) /\
  truthy (returnType U) = true.
Proof.
  unfold constructor. destruct (source_missing source'); [discriminate|].
  set (f := default_returnType _).
  assert (Hrt : truthy (returnType f) = true).
  { subst f. apply default_returnType_truthy. }
  clearbody f. destruct (validate ext f) eqn:Hv; [discriminate|].
  intros H. injection H as <-. unfold validate in Hv.
  destruct (source f) as [|src|]; try discriminate.
  destruct (utils_isFunctionString ext src) eqn:Hf; [|discriminate]. cbn [negb] in Hv.
  destruct (truthy (name f)) eqn:Hn; [|discriminate]. cbn [negb] in Hv.
  destruct (bool_decide (0 < length (argumentTypes f))
            && negb (bool_decide (length (argumentTypes f) = length (argumentNames f))))
    eqn:Ha; [discriminate|].
  destruct (bool_decide (length (output f) < 1)) eqn:Ho; [discriminate|].
  apply bool_decide_eq_false_1 in Ho.
  repeat split; eauto; [|lia].
  apply andb_false_iff in Ha as [Ha|Ha].
  - apply bool_decide_eq_false_1 in Ha. left. lia.
  - apply negb_false_iff, bool_decide_eq_true_1 in Ha. right. exact Ha.
Qed.

(** The name of a constructed instance: the name in the settings wins,
    also for a root kernel; without one a root kernel is called
    ['kernel'] and any other function has the name read off its source
    text. *)
Theorem constructor_name (source' : Source) (settings : Settings) (U : FunctionNode) :
  constructor ext source' (Some settings) = Ok U ->
  name U =
  match s_name settings, source' with
  | Some n, _ => n
  | None, SourceString src =>
      if default false (s_isRootKernel settings) then JStr "kernel"
      else utils_getFunctionNameFromString ext src
  | None, _ => JNull
  end.
Proof.
  unfold constructor. destruct (source_missing source'); [discriminate|].
  destruct (validate ext _); [discriminate|]. intros H. injection H as <-.
  cbn. destruct (s_name settings) as [n|]; [reflexivity|]. cbn.
  destruct source'; reflexivity.
Qed.

End Construction.

Lemma constructor_invariants_witness :
  (exists src, source Sample.node = SourceString src /\
               utils_isFunctionString Sample.ext src = true) /\
  truthy (name Sample.node) = true /\
  (length (argumentTypes Sample.node) = 0 \/
   length (argumentTypes Sample.node) = length (argumentNames Sample.node)) /\
  1 <= length (output Sample.node) /\
  truthy (returnType Sample.node) = true.
Proof.
  apply (constructor_invariants Sample.ext (SourceString Sample.text) (Some Sample.settings)).
  vm_compute. reflexivity.
Defined.

Lemma constructor_name_witness : name Sample2.root_node = JStr "main".
Proof.
  apply (constructor_name Sample.ext (SourceString Sample.text) Sample2.root_settings).
  vm_compute. reflexivity.
Defined.

(** ** Indexed arguments *)

Lemma signature_loop_index_chain (base : Ast) (indices : list (nat * Ast))
    (signature : list string) :
  signature_loop (index_chain base indices) signature
  = signature_loop base (signature ++ replicate (length indices) "[]").
Proof.
  revert signature. induction indices as [|[s i] indices IH] using rev_ind; intros signature.
  - cbn. rewrite app_nil_r. reflexivity.
  - unfold index_chain. rewrite fold_left_app. cbn [fold_left fst snd].
    fold (index_chain base indices). cbn [signature_loop].
    rewrite IH. unfold signature_step at 1. cbn [ast_computed].
    rewrite length_app. cbn [length]. rewrite Nat.add_1_r.
    rewrite <- app_assoc. cbn [app replicate]. reflexivity.
Qed.

Lemma index_chain_not_identifier (base : Ast) (indices : list (nat * Ast)) :
  indices <> [] ->
  exists s o p, index_chain base indices = MemberExpression s o p true.
Proof.
  destruct indices as [|si indices] using rev_ind; [congruence|]. intros _.
  unfold index_chain. rewrite fold_left_app. cbn. eauto.
Qed.

Lemma long_signature_not_allowed (rest : string) :
  2 <= String.length rest -> "value[][][]" +:+ rest ∉ allowedExpressions.
Proof.
  intros Hlen H. unfold allowedExpressions in H.
  cbv [String.append] in H.
  repeat (apply elem_of_cons in H as [H|H]; [try discriminate H|]).
  - injection H as ->. cbn in Hlen. lia.
  - inversion H.
Qed.

Lemma index_chain_signature
    (s : nat) (n : string) (indices : list (nat * Ast)) (w : World) :
  n <> EmptyString ->
  getVariableSignature (index_chain (Identifier s n) indices) w
  = (Ok match length indices with
        | 0 => JStr "value"
        | 1 => JStr "value[]"
        | 2 => JStr "value[][]"
        | 3 => JStr "value[][][]"
        | _ => JNull
        end, w).
Proof.
  intros Hn.
  destruct (decide (indices = [])) as [->|Hne]; [reflexivity|].
  destruct (index_chain_not_identifier (Identifier s n) indices Hne) as (s' & o & p & E).
  unfold getVariableSignature. rewrite E. cbn [isAstVariable negb ast_type].
  rewrite (bool_decide_eq_false_2 ("MemberExpression" = "Identifier")) by discriminate.
  rewrite <- E, signature_loop_index_chain. cbn [app signature_loop].
  unfold signature_step.
  cbn [ast_computed ast_type ast_property opt_name ast_name truthy].
  rewrite (bool_decide_eq_false_2 ("Identifier" = "ThisExpression")) by discriminate.
  rewrite (bool_decide_eq_false_2 (n = EmptyString)) by exact Hn. cbn [negb].
  destruct indices as [|i1 [|i2 [|i3 [|i4 more]]]];
    [congruence | reflexivity | reflexivity | reflexivity |].
  cbn [length replicate].
  set (tail := replicate (length more) "[]").
  rewrite bool_decide_eq_false_2; [reflexivity|].
  change (String.concat EmptyString ("value" :: "[]" :: "[]" :: "[]" :: "[]" :: tail))
    with ("value[][][]" +:+ String.concat EmptyString ("[]" :: tail)).
  apply long_signature_not_allowed. rewrite length_concat. cbn. lia.
Qed.

(** The signature of a named variable under [k] computed indices,
    [v[i1]...[ik]], whatever the index expressions are: ['value'] followed
    by [k] pairs of brackets for [k] up to three, and [null] from four
    indices on.  Nothing is changed. *)
Theorem getVariableSignature_index_chain
    (s : nat) (n : string) (indices : list (nat * Ast)) (w : World) :
  n <> EmptyString ->
  getVariableSignature (index_chain (Identifier s n) indices) w
  = (Ok match length indices with
        | 0 => JStr "value"
        | 1 => JStr "value[]"
        | 2 => JStr "value[][]"
        | 3 => JStr "value[][][]"
        | _ => JNull
        end, w).
Proof. exact (index_chain_signature s n indices w). Qed.

Lemma getVariableSignature_index_chain_witness :
  getVariableSignature
    (index_chain (Identifier 0 "a")
       [(0, Sample.number 0); (0, Sample.number 1); (0, Sample.number 2);
        (0, Sample.number 3)])
    Sample.world
  = (Ok JNull, Sample.world).
Proof.
  apply (getVariableSignature_index_chain 0 "a"
           [(0, Sample.number 0); (0, Sample.number 1); (0, Sample.number 2);
            (0, Sample.number 3)] Sample.world).
  discriminate.
Defined.

Lemma getVariableType_typed_argument (n : string) (i : nat) (t : jsstr) (w : World) :
  indexOf (argumentNames (this w)) (JStr n) = Some i ->
  argumentTypes (this w) !! i = Some t ->
  truthy t = true ->
  getVariableType (JStr n) w = (Ok t, w).
Proof.
  intros Hi Ht Htr. unfold getVariableType, bind, get_this.
  rewrite Hi, Ht. cbn [default from_option id]. rewrite Htr. reflexivity.
Qed.

Section IndexedArguments.

Variable ext : Externals.

(** The type of an argument of a known type [t] under one, two or three
    computed indices is the entry of [typeLookupMap] for [t]: the same
    type at every depth, so that [a[i]], [a[i][j]] and [a[i][j][k]] of an
    ['Array3D'] are all of type ['Number'].  Nothing is changed. *)
Theorem getType_indexed_argument
    (s : nat) (n : string) (indices : list (nat * Ast)) (i : nat) (t : jsstr) (w : World) :
  n <> EmptyString ->
  1 <= length indices <= 3 ->
  indexOf (argumentNames (this w)) (JStr n) = Some i ->
  argumentTypes (this w) !! i = Some t ->
  truthy t = true ->
  getType ext (index_chain (Identifier s n) indices) w
  = (Ok (table_get typeLookupMap t), w).
Proof.
  intros Hn Hlen Hi Ht Htr.
  pose proof (index_chain_signature s n indices w Hn) as Hsig.
  pose proof (getVariableType_typed_argument n i t w Hi Ht Htr) as Hty.
  destruct indices as [|[s1 i1] [|[s2 i2] [|[s3 i3] [|i4 more]]]];
    cbn [length] in Hlen; try lia; clear Hlen;
    cbn [index_chain fold_left fst snd] in *; cbn [length] in Hsig;
    cbn [getType isAstMathFunction isAstVariable]; unfold bind at 1; rewrite Hsig;
    cbn -[getVariableType table_get typeLookupMap];
    repeat first [ rewrite bool_decide_eq_true_2 by reflexivity
                 | rewrite bool_decide_eq_false_2 by discriminate ];
    cbv beta iota; unfold bind, ret; cbn [ast_name object_of ast_object field];
    repeat (progress (cbn [ast_name object_of ast_object field]; unfold ret; cbv beta iota));
    rewrite Hty; reflexivity.
Qed.

Lemma signature_property_value (p : string) (sig : list string) (s s' : nat) (o : Ast) :
  p <> EmptyString -> p <> "constants" -> p <> "thread" -> p <> "output" ->
  signature_step (MemberExpression s o (Identifier s' p) false) sig = ".value" :: sig.
Proof.
  intros H0 H1 H2 H3. unfold signature_step.
  cbn [ast_computed ast_type ast_property opt_name ast_name truthy to_key].
  rewrite (bool_decide_eq_false_2 ("MemberExpression" = "ThisExpression")) by discriminate.
  rewrite (bool_decide_eq_false_2 (p = EmptyString)) by exact H0. cbn [negb].
  rewrite (bool_decide_eq_false_2 (p = "constants")) by exact H1.
  rewrite (bool_decide_eq_false_2 (p = "thread")) by exact H2.
  rewrite (bool_decide_eq_false_2 (p = "output")) by exact H3.
  destruct (_ || _ || _); reflexivity.
Qed.

(** [this.thread.p] and [this.output.p] are of type ['Integer'] for
    every property name [p] other than [constants], [thread] and
    [output], not only for [x], [y] and [z].  Nothing is changed. *)
Theorem getType_this_thread (s1 s2 s3 s4 s5 : nat) (root p : string) (w : World) :
  root = "thread" \/ root = "output" ->
  p <> EmptyString -> p <> "constants" -> p <> "thread" -> p <> "output" ->
  getType ext
    (MemberExpression s1
       (MemberExpression s2 (ThisExpression s3) (Identifier s4 root) false)
       (Identifier s5 p) false) w
  = (Ok (JStr "Integer"), w).
Proof.
  intros Hroot H0 H1 H2 H3.
  cbn [getType isAstMathFunction isAstVariable]. unfold bind at 1.
  unfold getVariableSignature. cbn [isAstVariable negb ast_type].
  rewrite (bool_decide_eq_false_2 ("MemberExpression" = "Identifier")) by discriminate.
  cbv zeta. cbn [signature_loop].
  rewrite (signature_property_value p [] s1 s5 _ H0 H1 H2 H3).
  destruct Hroot as [-> | ->]; vm_compute; reflexivity.
Qed.

End IndexedArguments.

Lemma getType_indexed_argument_witness :
  getType Sample.ext
    (index_chain (Identifier 0 "a") [(0, Sample.number 0); (0, Sample.number 1)])
    Sample2.typed_world
  = (Ok (table_get typeLookupMap (JStr "HTMLImageArray")), Sample2.typed_world).
Proof.
  apply (getType_indexed_argument Sample.ext 0 "a"
           [(0, Sample.number 0); (0, Sample.number 1)] 0 (JStr "HTMLImageArray")
           Sample2.typed_world).
  - discriminate.
  - cbn. lia.
  - reflexivity.
  - reflexivity.
  - reflexivity.
Defined.

Lemma getType_this_thread_witness :
  getType Sample.ext
    (MemberExpression 0
       (MemberExpression 0 (ThisExpression 0) (Identifier 5 "thread") false)
       (Identifier 12 "w") false) Sample.world
  = (Ok (JStr "Integer"), Sample.world).
Proof.
  apply (getType_this_thread Sample.ext 0 0 0 5 12 "thread" "w" Sample.world).
  - left. reflexivity.
  - discriminate.
  - discriminate.
  - discriminate.
  - discriminate.
Defined.

(** ** Unrolled member expressions *)

Lemma append_assoc (a b c : string) : (a +:+ b) +:+ c = a +:+ (b +:+ c).
Proof.
  induction a as [|x a IH]; [reflexivity|].
  change (String x ((a +:+ b) +:+ c) = String x (a +:+ (b +:+ c))).
  rewrite IH. reflexivity.
Qed.

Lemma concat_snoc (sep x y : string) (l : list string) :
  String.concat sep ((x :: l) ++ [y]) = String.concat sep (x :: l) +:+ sep +:+ y.
Proof.
  revert x. induction l as [|z l IH]; intros x; [reflexivity|].
  change (String.concat sep ((x :: z :: l) ++ [y]))
    with (x +:+ sep +:+ String.concat sep ((z :: l) ++ [y])).
  rewrite IH.
  change (String.concat sep (x :: z :: l)) with (x +:+ sep +:+ String.concat sep (z :: l)).
  rewrite !append_assoc. reflexivity.
Qed.

Lemma member_chain_snoc (base : Ast) (names : list (nat * nat * string))
    (n : nat * nat * string) :
  member_chain base (names ++ [n])
  = MemberExpression (fst (fst n)) (member_chain base names)
      (Identifier (snd (fst n)) (snd n)) false.
Proof. unfold member_chain. rewrite fold_left_app. reflexivity. Qed.

Lemma member_chain_cons_shape (base : Ast) (n : nat * nat * string)
    (names : list (nat * nat * string)) :
  exists s o p, member_chain base (n :: names) = MemberExpression s o p false.
Proof.
  destruct names as [|m names _] using rev_ind.
  - cbn. eauto.
  - rewrite app_comm_cons, member_chain_snoc. eauto.
Qed.

Section Unrolled.

Variable ext : Externals.

(** A chain of named properties [a.b.c...] whose first name does not
    start with an underscore unrolls to its names joined by dots, and
    nothing is changed. *)
Theorem astMemberExpressionUnroll_chain
    (s : nat) (first : string) (names : list (nat * nat * string)) (w : World) :
  starts_with_underscore first = false ->
  astMemberExpressionUnroll ext (member_chain (Identifier s first) names) w
  = (Ok (String.concat "." (first :: map snd names)), w).
Proof.
  intros Hu. induction names as [|n names IH] using rev_ind; [reflexivity|].
  rewrite member_chain_snoc. cbn [astMemberExpressionUnroll].
  assert (Hobj : match member_chain (Identifier s first) names with
                 | Identifier _ name' => starts_with_underscore name'
                 | _ => false
                 end = false).
  { destruct names as [|m names].
    - cbn. exact Hu.
    - destruct (member_chain_cons_shape (Identifier s first) m names) as (s' & o & p & ->).
      reflexivity. }
  rewrite Hobj. unfold bind. rewrite IH. cbn [astMemberExpressionUnroll]. unfold ret.
  rewrite map_app. cbn [map]. rewrite app_comm_cons, concat_snoc. reflexivity.
Qed.

(** When the first name starts with an underscore and a property
    follows, the first name is left out: [_a.b.c] unrolls to [b.c]. *)
Theorem astMemberExpressionUnroll_underscore
    (s : nat) (first : string) (n : nat * nat * string) (names : list (nat * nat * string))
    (w : World) :
  starts_with_underscore first = true ->
  astMemberExpressionUnroll ext (member_chain (Identifier s first) (n :: names)) w
  = (Ok (String.concat "." (snd n :: map snd names)), w).
Proof.
  intros Hu. induction names as [|m names IH] using rev_ind.
  - cbn. rewrite Hu. reflexivity.
  - rewrite app_comm_cons, member_chain_snoc. cbn [astMemberExpressionUnroll].
    assert (Hobj : match member_chain (Identifier s first) (n :: names) with
                   | Identifier _ name' => starts_with_underscore name'
                   | _ => false
                   end = false).
    { destruct (member_chain_cons_shape (Identifier s first) n names) as (s' & o & p & ->).
      reflexivity. }
    rewrite Hobj. unfold bind. rewrite IH.
    cbn [astMemberExpressionUnroll]. unfold ret.
    rewrite map_app. cbn [map]. rewrite app_comm_cons, concat_snoc. reflexivity.
Qed.

End Unrolled.

Lemma astMemberExpressionUnroll_chain_witness :
  astMemberExpressionUnroll Sample.ext
    (member_chain (Identifier 0 "a") [(0, 2, "b"); (0, 4, "c")]) Sample.world
  = (Ok (String.concat "." ["a"; "b"; "c"]), Sample.world).
Proof.
  apply (astMemberExpressionUnroll_chain Sample.ext 0 "a" [(0, 2, "b"); (0, 4, "c")]).
  reflexivity.
Defined.

Lemma astMemberExpressionUnroll_underscore_witness :
  astMemberExpressionUnroll Sample.ext
    (member_chain (Identifier 0 "_this") [(0, 6, "x"); (0, 8, "y")]) Sample.world
  = (Ok (String.concat "." ["x"; "y"]), Sample.world).
Proof.
  apply (astMemberExpressionUnroll_underscore Sample.ext 0 "_this" (0, 6, "x") [(0, 8, "y")]).
  reflexivity.
Defined.

(** ** The line that the error reporter counts *)

Lemma leading_substr (src : string) (n : nat) : leading src n +:+ substr src n = src.
Proof.
  revert n. induction src as [|c src IH]; intros [|n]; try reflexivity.
  cbn [leading substr]. change (String c (leading src n +:+ substr src n) = String c src).
  rewrite IH. reflexivity.
Qed.

Lemma list_ascii_append (a b : string) :
  String.list_ascii_of_string (a +:+ b)
  = String.list_ascii_of_string a ++ String.list_ascii_of_string b.
Proof.
  induction a as [|c a IH]; [reflexivity|].
  change (String c a +:+ b) with (String c (a +:+ b)). cbn [String.list_ascii_of_string].
  rewrite IH. reflexivity.
Qed.

Section ReportedLine.

Variable ext : Externals.

(** For a textual source the reporter counts the lines from the offset
    [ast.start] to the end of [this.source]: the line it reports and
    the number of lines of [this.source] up to that offset add up to
    the number of lines of the source plus one.  The offset is the one
    the tree carries; in a tree that [getJsAST] has built it counts the
    characters of [const parser_<name> = ] too, so that the text in
    front of it is not the text in front of the node. *)
Theorem astErrorOutput_line_law (error : string) (ast : Ast) (f : FunctionNode)
    (src : string) :
  source f = SourceString src ->
  exists line position debugString,
    astErrorOutput ext error ast f = AstError error line position debugString /\
    line + line_by_spec src (ast_start ast) = S (length (split_lines src)).
Proof.
  intros Hs. unfold astErrorOutput. rewrite Hs. cbv zeta.
  do 3 eexists. split; [reflexivity|].
  unfold line_by_spec. rewrite !split_lines_length.
  rewrite <- (leading_substr src (ast_start ast)) at 3.
  rewrite list_ascii_append, filter_app, length_app. lia.
Qed.

End ReportedLine.

(** The function expression as parsed, at offset 17: it starts on the
    first of the three lines, and the seventeen characters in front of
    the offset reach into the second. *)
Lemma astErrorOutput_line_law_witness :
  exists line position debugString,
    astErrorOutput Sample.ext "Unhandled" Sample2.parsed_floor_function Sample.node
    = AstError "Unhandled" line position debugString /\
    line + line_by_spec Sample.text (ast_start Sample2.parsed_floor_function)
    = S (length (split_lines Sample.text)).
Proof.
  apply (astErrorOutput_line_law Sample.ext "Unhandled" Sample2.parsed_floor_function
           Sample.node Sample.text).
  reflexivity.
Defined.

(** ** What the analyzers and the walker leave alone

    One induction over the methods serves several statements: a
    preorder on worlds that every primitive step respects is respected
    by every method built from those steps, whether it returns or
    throws. *)

Section Frame.

Variable ext : Externals.
Variable R : World -> World -> Prop.
Hypothesis R_refl : forall w, R w w.
Hypothesis R_trans : forall w1 w2 w3, R w1 w2 -> R w2 w3 -> R w1 w3.
Hypothesis R_argumentTypes :
  forall w l, R w (with_this (set_argumentTypes l (this w)) w).

Lemma respects_ret {A} (a : A) : respects R (ret a).
Proof. intros w. apply R_refl. Qed.

Lemma respects_throw {A} (e : exn) : respects R (@throw A e).
Proof. intros w. apply R_refl. Qed.

Lemma respects_bind {A B} (m : M A) (k : A -> M B) :
  respects R m -> (forall a, respects R (k a)) -> respects R (bind m k).
Proof.
  intros Hm Hk w. unfold bind. specialize (Hm w).
  destruct (m w) as [[a|e] w1]; cbn in *; [|exact Hm].
  eapply R_trans; [exact Hm | apply Hk].
Qed.

Lemma respects_get_this : respects R get_this.
Proof. intros w. apply R_refl. Qed.

Lemma respects_join_array (sep : string) (arr : nat) : respects R (join_array sep arr).
Proof. intros w. apply R_refl. Qed.

Lemma respects_set_argumentTypes (g : FunctionNode -> list jsstr) :
  respects R (modify_this (fun f => set_argumentTypes (g f) f)).
Proof. intros w. apply R_argumentTypes. Qed.

Lemma respects_field {A} (what : string) (o : option A) : respects R (field what o).
Proof. destruct o; [apply respects_ret | apply respects_throw]. Qed.

Lemma respects_no_type {A} : respects R (@no_type A).
Proof. apply respects_throw. Qed.

Ltac respects_step :=
  first
    [ apply respects_ret | apply respects_throw | apply respects_get_this
    | apply respects_join_array | apply respects_set_argumentTypes
    | apply respects_field | apply respects_no_type
    | assumption
    | apply respects_bind; [|intros ?]
    | match goal with
      | |- respects R (if ?b then _ else _) => destruct b
      | |- respects R (match ?x with _ => _ end) => destruct x
      end ].

Lemma respects_throw_ast {A} (error : string) (ast : Ast) :
  respects R (@throw_ast ext A error ast).
Proof. unfold throw_ast. repeat respects_step. Qed.

Lemma respects_getVariableSignature (ast : Ast) : respects R (getVariableSignature ast).
Proof. unfold getVariableSignature. repeat respects_step. Qed.

Lemma respects_first_binding (i : nat) (l : list (list (option ArgumentBinding))) :
  respects R (first_binding i l).
Proof. induction l as [|c l IH]; cbn [first_binding]; repeat respects_step. Qed.

Lemma respects_getVariableType (n : jsstr) : respects R (getVariableType n).
Proof. unfold getVariableType. repeat respects_step; try apply respects_first_binding. Qed.

Lemma respects_getMemberExpressionDetails (ast : Ast) :
  respects R (getMemberExpressionDetails ext ast).
Proof.
  unfold getMemberExpressionDetails, constant_details, user_details, object_of, property_of.
  cbv zeta.
  repeat first [ apply respects_throw_ast | apply respects_getVariableSignature
               | apply respects_getVariableType | respects_step ].
Qed.

Lemma respects_getType (ast : Ast) : respects R (getType ext ast).
Proof.
  induction ast; cbn [getType]; unfold object_of, property_of; cbv zeta;
    repeat first [ apply respects_throw_ast | apply respects_getVariableSignature
                 | apply respects_getVariableType | respects_step ].
  - apply (option_all_Some _ _ H).
  - apply list_all_Forall in H.
    induction H as [|a l Ha Hl IH]; [apply respects_no_type|].
    destruct l; [exact Ha | exact IH].
  - apply list_all_Forall in H. inversion H. assumption.
Qed.

Lemma respects_getDependencies_deep (ast : Ast) :
  respects_dependencies R ext ast /\
  match ast with
  | BlockStatement _ body => Forall (respects_dependencies R ext) body
  | _ => True
  end.
Proof.
  induction ast; (split; [intros deps flag|try exact I]); cbn [getDependencies]; cbv zeta;
    repeat first [ apply respects_throw_ast | apply respects_getMemberExpressionDetails
                 | respects_step ].
  - destruct IHast as [_ Hbody].
    induction Hbody as [|a l Ha Hl IH]; [apply respects_ret|].
    destruct l; [apply Ha | exact IH].
  - apply (option_all_Some _ _ H).
  - apply IHast1.
  - apply IHast2.
  - apply list_all_Forall in H. eapply Forall_impl; [exact H|]. intros a Ha. apply Ha.
  - apply list_all_Forall in H. revert deps.
    induction H as [|a l Ha Hl IH]; intros deps; [apply respects_ret|].
    apply respects_bind; [apply Ha | intros r; apply IH].
  - apply (option_all_Some _ _ H).
  - apply IHast.
Qed.

Lemma respects_getDependencies (ast : Ast) (deps : list Dependency) (flag : bool) :
  respects R (getDependencies ext ast deps flag).
Proof. apply respects_getDependencies_deep. Qed.

Hypothesis R_push : forall w arr xs, R w (snd (push arr xs w)).
Hypothesis R_new_array : forall w init, R w (snd (new_array init w)).
Hypothesis R_call_hook : forall w text t, R w (snd (call_hook text t w)).
Hypothesis R_declarations :
  forall w d, R w (with_this (set_declarations d (this w)) w).

Lemma respects_push (arr : nat) (xs : list Fragment) : respects R (push arr xs).
Proof. intros w. apply R_push. Qed.

Lemma respects_new_array (init : list Fragment) : respects R (new_array init).
Proof. intros w. apply R_new_array. Qed.

Lemma respects_call_hook (text : string) (t : jsstr) : respects R (call_hook text t).
Proof. intros w. apply R_call_hook. Qed.

Lemma respects_set_declarations (g : FunctionNode -> gmap string Declaration) :
  respects R (modify_this (fun f => set_declarations (g f) f)).
Proof. intros w. apply R_declarations. Qed.

Section Walk.

Variable walk : Ast -> nat -> M unit.

Lemma respects_walk_array (l : list Ast) (retArr : nat) :
  Forall (respects_walk R walk) l -> respects R (walk_array walk l retArr).
Proof.
  induction 1 as [|a l Ha Hl IH]; cbn [walk_array]; [apply respects_ret|].
  apply respects_bind; [apply Ha | intros _; exact IH].
Qed.

Lemma respects_sequence_loop (expressions turns : list Ast) (first : bool) (retArr : nat) :
  Forall (respects_walk R walk) expressions ->
  respects R (sequence_loop walk expressions turns first retArr).
Proof.
  intros H. revert first. induction turns as [|t turns IH]; intros first; cbn [sequence_loop].
  - apply respects_ret.
  - apply respects_bind;
      [destruct first; [apply respects_ret | apply respects_push]|intros _].
    apply respects_bind; [apply respects_walk_array; exact H | intros _; apply IH].
Qed.

Lemma respects_declared_type (varDecNode init : Ast) :
  respects R (declared_type ext varDecNode init).
Proof.
  unfold declared_type. cbv zeta.
  repeat first [ apply respects_throw_ast | apply respects_getType | respects_step ].
Qed.

Lemma respects_later_declarations (type : jsstr) (l : list Ast) (result : nat) :
  Forall (respects_walk R walk) l -> respects R (later_declarations ext walk type l result).
Proof.
  induction 1 as [|a l Ha Hl IH]; cbn [later_declarations]; [apply respects_ret|].
  apply respects_bind; [apply respects_getDependencies|intros deps].
  apply respects_bind; [apply respects_field|intros id].
  apply respects_bind; [apply respects_set_declarations|intros _].
  apply respects_bind; [apply Ha | intros _; exact IH].
Qed.

End Walk.

Lemma respects_astGeneric_deep (ast : Ast) :
  respects_walk R (astGeneric ext) ast /\
  match ast with
  | VariableDeclarator _ _ (Some init) => respects_walk R (astGeneric ext) init
  | _ => True
  end.
Proof.
  induction ast; (split; [intros retArr|try exact I]); cbn [astGeneric].
  all: try (first [ apply respects_ret | apply respects_push | apply respects_throw_ast ]).
  - unfold astFunctionDeclaration. cbv zeta.
    repeat first [ apply respects_getType | apply respects_call_hook | respects_step ].
  - cbn [astExpressionStatement]. destruct IHast as [IH _].
    apply respects_bind; [apply IH | intros _; apply respects_push].
  - apply list_all_Forall in H.
    match goal with |- context [VariableDeclaration _ ?l] => rename l into declarators end.
    assert (Hwalk : Forall (respects_walk R (astGeneric ext)) declarators).
    { eapply Forall_impl; [exact H|]. intros a [Ha _]. exact Ha. }
    cbn [astVariableDeclaration].
    destruct declarators as [|d rest]; [apply respects_throw_ast|].
    apply Forall_cons in H as [[_ Hd] _]. apply Forall_cons in Hwalk as [_ Hrest].
    destruct d; try (apply respects_throw_ast).
    + destruct init; [|apply respects_throw_ast].
      apply respects_bind; [apply respects_new_array|intros result].
      apply respects_bind; [apply respects_declared_type|intros type].
      apply respects_bind; [apply respects_getDependencies|intros deps].
      apply respects_throw.
    + destruct init as [init|]; [|apply respects_throw_ast].
      apply respects_bind; [apply respects_new_array|intros result].
      apply respects_bind; [apply respects_declared_type|intros type].
      apply respects_bind; [apply respects_getDependencies|intros deps].
      apply respects_bind.
      { destruct (fst deps) as [l| |t]; try (apply respects_throw).
        apply respects_set_declarations. }
      intros _.
      apply respects_bind; [apply respects_new_array|intros initResult].
      apply respects_bind; [apply Hd|intros _].
      apply respects_bind; [apply respects_join_array|intros text].
      apply respects_bind; [apply respects_push|intros _].
      apply respects_bind; [apply respects_later_declarations; exact Hrest|intros _].
      apply respects_bind; [apply respects_join_array|intros joined].
      apply respects_bind; [apply respects_push|intros _].
      apply respects_push.
  - cbn [astVariableDeclarator]. destruct IHast as [IH _].
    apply respects_bind; [apply IH|intros _].
    destruct init as [init|]; [|apply respects_ret].
    apply option_all_Some in H. destruct H as [Hinit _].
    apply respects_bind; [apply respects_push|intros _]. apply Hinit.
  - destruct init as [init|]; [|exact I].
    apply option_all_Some in H. apply H.
  - cbn [astSequenceExpression]. apply respects_sequence_loop.
    apply list_all_Forall in H. eapply Forall_impl; [exact H|]. intros a [Ha _]. exact Ha.
  - cbn [astUnaryExpression]. destruct IHast as [IH _].
    destruct prefix0; (apply respects_bind; [|intros _]);
      first [ apply IH | apply respects_push ].
  - cbn [astUpdateExpression]. destruct IHast as [IH _].
    destruct prefix0; (apply respects_bind; [|intros _]);
      first [ apply IH | apply respects_push ].
  - cbn [astLogicalExpression]. destruct IHast1 as [IH1 _], IHast2 as [IH2 _].
    repeat (apply respects_bind; [|intros _]);
      first [ apply IH1 | apply IH2 | apply respects_push ].
  - cbn [astConditionalExpression].
    destruct IHast1 as [IH1 _], IHast2 as [IH2 _], IHast3 as [IH3 _].
    repeat (apply respects_bind; [|intros _]);
      first [ apply IH1 | apply IH2 | apply IH3 | apply respects_push ].
Qed.

End Frame.

Lemma only_argumentTypes_refl (w : World) : only_argumentTypes w w.
Proof.
  exists (argumentTypes (this w)). rewrite set_argumentTypes_same, with_this_same. reflexivity.
Qed.

Lemma only_argumentTypes_trans (w1 w2 w3 : World) :
  only_argumentTypes w1 w2 -> only_argumentTypes w2 w3 -> only_argumentTypes w1 w3.
Proof. intros [l1 ->] [l2 ->]. exists l2. reflexivity. Qed.

(** The type oracle, the member-expression decomposer and the dependency
    analyzer change nothing in the world but [this.argumentTypes],
    whether they return or throw: no array of emitted text, no
    declaration and no state is touched. *)
Theorem oracle_changes_only_argumentTypes (ext : Externals) (ast : Ast) (w : World) :
  only_argumentTypes w (snd (getType ext ast w)) /\
  only_argumentTypes w (snd (getMemberExpressionDetails ext ast w)) /\
  (forall deps flag, only_argumentTypes w (snd (getDependencies ext ast deps flag w))).
Proof.
  assert (Hstep : forall w l,
            only_argumentTypes w (with_this (set_argumentTypes l (this w)) w))
    by (intros w0 l; exists l; reflexivity).
  split; [|split].
  - apply (respects_getType ext _ only_argumentTypes_refl only_argumentTypes_trans Hstep).
  - apply (respects_getMemberExpressionDetails ext _
             only_argumentTypes_refl only_argumentTypes_trans Hstep).
  - intros deps flag.
    apply (respects_getDependencies ext _
             only_argumentTypes_refl only_argumentTypes_trans Hstep).
Qed.

Lemma arrays_grow_refl (w : World) : arrays_grow w w.
Proof. intros i l H. exists []. rewrite app_nil_r. exact H. Qed.

Lemma arrays_grow_trans (w1 w2 w3 : World) :
  arrays_grow w1 w2 -> arrays_grow w2 w3 -> arrays_grow w1 w3.
Proof.
  intros H12 H23 i l H. destruct (H12 i l H) as [a1 H1].
  destruct (H23 i _ H1) as [a2 H2]. exists (a1 ++ a2). rewrite app_assoc. exact H2.
Qed.

(** The walker only appends: every array of emitted text that is there
    before a node is walked is there afterwards with what it held at
    its front, also when the walk throws.  Nothing emitted is ever
    taken back or overwritten. *)
Theorem walker_only_appends (ext : Externals) (ast : Ast) (retArr : nat) (w : World) :
  arrays_grow w (snd (astGeneric ext ast retArr w)).
Proof.
  apply (respects_astGeneric_deep ext arrays_grow arrays_grow_refl arrays_grow_trans).
  - intros w0 l. exact (arrays_grow_refl w0).
  - intros w0 arr xs i l H. cbn.
    destruct (decide (arr = i)) as [->|Hne].
    + exists xs. rewrite list_lookup_alter_eq, H. reflexivity.
    + exists []. rewrite list_lookup_alter_ne by exact Hne. rewrite app_nil_r. exact H.
  - intros w0 init i l H. cbn. exists []. rewrite app_nil_r.
    apply lookup_app_l_Some. exact H.
  - intros w0 text t. exact (arrays_grow_refl w0).
  - intros w0 d. exact (arrays_grow_refl w0).
Qed.

Lemma instance_frame_refl (w : World) : instance_frame w w.
Proof.
  exists (declarations (this w)), (argumentTypes (this w)).
  rewrite set_argumentTypes_same, set_declarations_same. reflexivity.
Qed.

Lemma instance_frame_trans (w1 w2 w3 : World) :
  instance_frame w1 w2 -> instance_frame w2 w3 -> instance_frame w1 w3.
Proof. intros (d1 & l1 & E1) (d2 & l2 & E2). exists d2, l2. rewrite E2, E1. reflexivity. Qed.

(** Of the instance the walker changes [declarations] and
    [argumentTypes] and nothing else, also when it throws; the stack of
    states in particular is after a walk what it was before. *)
Theorem walker_instance_frame (ext : Externals) (ast : Ast) (retArr : nat) (w : World) :
  let w' := snd (astGeneric ext ast retArr w) in
  instance_frame w w' /\ states (this w') = states (this w).
Proof.
  intros w'.
  assert (H : instance_frame w w').
  { apply (respects_astGeneric_deep ext instance_frame instance_frame_refl instance_frame_trans).
    - intros w0 l. exists (declarations (this w0)), l. reflexivity.
    - intros w0 arr xs. exact (instance_frame_refl w0).
    - intros w0 init. exact (instance_frame_refl w0).
    - intros w0 text t. exact (instance_frame_refl w0).
    - intros w0 d. exists d, (argumentTypes (this w0)).
      cbn. rewrite set_argumentTypes_same. reflexivity. }
  split; [exact H|]. destruct H as (d & l & ->). reflexivity.
Qed.

(** ** What the dependency analyzer collects *)

Section Collected.

Variable ext : Externals.

Lemma sound_one (deps : list Dependency) (d : Dependency) (v : DepsValue) (deps' : list Dependency) :
  dep_sound d -> v = DepsArray (deps ++ [d]) -> deps' = deps ++ [d] ->
  (exists added, deps' = deps ++ added /\ Forall dep_sound added) /\
  (forall l, v = DepsArray l -> l = deps').
Proof.
  intros Hd -> ->. split; [exists [d]; split; [reflexivity|constructor; [exact Hd|constructor]]|].
  intros l H. injection H as <-. reflexivity.
Qed.

Lemma sound_none (deps : list Dependency) (v : DepsValue) :
  (forall l, v = DepsArray l -> l = deps) ->
  (exists added, deps = deps ++ added /\ Forall dep_sound added) /\
  (forall l, v = DepsArray l -> l = deps).
Proof.
  intros H. split; [exists []; rewrite app_nil_r; split; [reflexivity|constructor]|exact H].
Qed.

Lemma sound_then (deps deps1 deps2 : list Dependency) :
  (exists added, deps1 = deps ++ added /\ Forall dep_sound added) ->
  (exists added, deps2 = deps1 ++ added /\ Forall dep_sound added) ->
  exists added, deps2 = deps ++ added /\ Forall dep_sound added.
Proof.
  intros (a1 & -> & F1) (a2 & -> & F2). exists (a1 ++ a2).
  rewrite app_assoc. split; [reflexivity|]. apply Forall_app. split; assumption.
Qed.

Lemma getDependencies_sound_deep (ast : Ast) :
  extends_soundly ext ast /\
  match ast with
  | BlockStatement _ body => Forall (extends_soundly ext) body
  | _ => True
  end.
Proof.
  induction ast;
    (split;
     [intros deps flag w v deps' w' Hrun;
      cbn [getDependencies] in Hrun; cbv zeta in Hrun;
      try (unfold throw_ast, bind, get_this, throw in Hrun; discriminate Hrun)
     |try exact I]).
  - (* FunctionDeclaration *)
    destruct IHast as [_ Hbody]. destruct ast; try discriminate Hrun.
    induction Hbody as [|a l Ha Hl IH].
    + injection Hrun as <- <- <-. apply sound_none. discriminate.
    + destruct l; [exact (Ha _ _ _ _ _ _ Hrun) | exact (IH Hrun)].
  - (* ReturnStatement *)
    destruct argument as [a|].
    + apply option_all_Some in H. exact (proj1 H _ _ _ _ _ _ Hrun).
    + injection Hrun as <- <- <-. apply sound_none. discriminate.
  - (* Literal *)
    injection Hrun as <- <- <-. eapply sound_one; [|reflexivity|reflexivity].
    split; [|split]; cbn; [|discriminate|discriminate].
    apply list_elem_of_here.
  - (* BinaryExpression *)
    apply bind_Ok in Hrun as ([v1 d1] & w1 & H1 & Hrun).
    apply bind_Ok in Hrun as ([v2 d2] & w2 & H2 & Hrun).
    injection Hrun as <- <- <-. cbn [snd] in *.
    split; [|intros l E; injection E as <-; reflexivity].
    eapply sound_then.
    + exact (proj1 (proj1 IHast1 _ _ _ _ _ _ H1)).
    + exact (proj1 (proj1 IHast2 _ _ _ _ _ _ H2)).
  - (* Identifier *)
    apply bind_Ok in Hrun as (f & w1 & _ & Hrun).
    destruct (declarations f !! _) as [d|].
    + injection Hrun as <- <- <-. eapply sound_one; [|reflexivity|reflexivity].
      split; [|split]; cbn; [|discriminate|discriminate].
      apply list_elem_of_further, list_elem_of_here.
    + destruct (bool_decide _).
      * injection Hrun as <- <- <-. eapply sound_one; [|reflexivity|reflexivity].
        split; [|split]; cbn; [|reflexivity|discriminate].
        do 2 apply list_elem_of_further. apply list_elem_of_here.
      * injection Hrun as <- <- <-. apply sound_none.
        intros l E. injection E as <-. reflexivity.
  - (* BlockStatement: its statements *)
    apply list_all_Forall in H. eapply Forall_impl; [exact H|]. intros a Ha. apply Ha.
  - (* VariableDeclaration *)
    apply list_all_Forall in H. revert deps w Hrun.
    induction H as [|a l Ha Hl IH]; intros deps w Hrun.
    + injection Hrun as <- <- <-. apply sound_none.
      intros l E. injection E as <-. reflexivity.
    + apply bind_Ok in Hrun as ([v1 d1] & w1 & H1 & Hrun). cbn [snd] in Hrun.
      destruct (IH _ _ Hrun) as [Hadd Hv]. split; [|exact Hv].
      eapply sound_then; [|exact Hadd].
      exact (proj1 (proj1 Ha _ _ _ _ _ _ H1)).
  - (* VariableDeclarator *)
    destruct init as [a|].
    + apply option_all_Some in H. exact (proj1 H _ _ _ _ _ _ Hrun).
    + injection Hrun as <- <- <-. apply sound_none. discriminate.
  - (* UpdateExpression *)
    exact (proj1 IHast _ _ _ _ _ _ Hrun).
  - (* MemberExpression *)
    apply bind_Ok in Hrun as (details & w1 & _ & Hrun).
    destruct details as [d|].
    + injection Hrun as <- <- <-. apply sound_none. discriminate.
    + unfold throw_ast, bind, get_this, throw in Hrun. discriminate Hrun.
  - (* CallExpression *)
    injection Hrun as <- <- <-. eapply sound_one; [|reflexivity|reflexivity].
    split; [|split]; cbn; [|discriminate|reflexivity].
    do 3 apply list_elem_of_further. apply list_elem_of_here.
  - (* ArrayExpression *)
    injection Hrun as <- <- <-. eapply sound_one; [|reflexivity|reflexivity].
    split; [|split]; cbn; [|discriminate|discriminate].
    apply list_elem_of_further, list_elem_of_here.
Qed.

(** The dependency analyzer only adds to the list it is given: the list
    it returns starts with that list.  What it answers is the list it
    returns, [null], or a type name. *)
Theorem getDependencies_extends (ast : Ast) (deps : list Dependency) (flag : bool)
    (w w' : World) (v : DepsValue) (deps' : list Dependency) :
  getDependencies ext ast deps flag w = (Ok (v, deps'), w') ->
  deps `prefix_of` deps' /\
  (v = DepsArray deps' \/ v = DepsNull \/ exists t, v = DepsType t).
Proof.
  intros Hrun.
  destruct (proj1 (getDependencies_sound_deep ast) _ _ _ _ _ _ Hrun) as [(added & -> & _) Hv].
  split; [exists added; reflexivity|].
  destruct v as [l| |t]; [left; rewrite (Hv l eq_refl); reflexivity | auto | eauto].
Qed.

(** Every dependency collected has one of the four origins
    ['literal'], ['declaration'], ['argument'] and ['function']; one
    from an argument is never safe and one from a function call always
    is, whatever the context. *)
Theorem getDependencies_origins (ast : Ast) (flag : bool)
    (w w' : World) (v : DepsValue) (deps' : list Dependency) :
  getDependencies ext ast [] flag w = (Ok (v, deps'), w') ->
  Forall dep_sound deps'.
Proof.
  intros Hrun.
  destruct (proj1 (getDependencies_sound_deep ast) _ _ _ _ _ _ Hrun) as [(added & -> & F) _].
  exact F.
Qed.
End Collected.

Lemma getDependencies_extends_witness :
  let given := [literal_dependency 7 true] in
  let run := getDependencies Sample.ext Sample.sum_times given false Sample.world in
  exists v deps',
    fst run = Ok (v, deps') /\
    given `prefix_of` deps' /\
    (v = DepsArray deps' \/ v = DepsNull \/ exists t, v = DepsType t).
Proof.
  intros given run. do 2 eexists. split; [vm_compute; reflexivity|].
  apply (getDependencies_extends Sample.ext Sample.sum_times given false
           Sample.world (snd run)).
  vm_compute. reflexivity.
Defined.

Lemma getDependencies_origins_witness :
  let run := getDependencies Sample.ext Sample.sum_times [] false Sample.world in
  exists v deps', fst run = Ok (v, deps') /\ Forall dep_sound deps'.
Proof.
  intros run. do 2 eexists. split; [vm_compute; reflexivity|].
  eapply (getDependencies_origins Sample.ext Sample.sum_times false
            Sample.world (snd run)).
  vm_compute. reflexivity.
Defined.

(** ** The arrays that a walk writes to *)

Lemma same_arrays_refl (w : World) : same_arrays w w.
Proof. reflexivity. Qed.

Lemma same_arrays_trans (w1 w2 w3 : World) :
  same_arrays w1 w2 -> same_arrays w2 w3 -> same_arrays w1 w3.
Proof. unfold same_arrays. congruence. Qed.

Lemma same_arrays_argumentTypes (w : World) (l : list jsstr) :
  same_arrays w (with_this (set_argumentTypes l (this w)) w).
Proof. reflexivity. Qed.

Section OwnArray.

Variable ext : Externals.

Lemma writes_same {A} (n r : nat) (m : M A) : respects same_arrays m -> writes_to n r m.
Proof.
  intros H w Hn. specialize (H w). unfold same_arrays in H. unfold others_kept.
  rewrite H. split; [lia|reflexivity].
Qed.

Lemma writes_bind {A B} (n r : nat) (m : M A) (k : A -> M B) :
  writes_to n r m -> (forall a, writes_to n r (k a)) -> writes_to n r (bind m k).
Proof.
  intros Hm Hk w Hn. unfold bind. specialize (Hm w Hn).
  destruct (m w) as [[a|e] w1]; cbn in *; [|exact Hm].
  destruct Hm as [Hlen Hold].
  destruct (Hk a w1 ltac:(lia)) as [Hlen' Hold'].
  split; [lia|]. intros i Hi Hr. rewrite Hold' by assumption. apply Hold; assumption.
Qed.

Lemma writes_new_array {B} (n r : nat) (init : list Fragment) (k : nat -> M B) :
  (forall a, n <= a -> writes_to n r (k a)) -> writes_to n r (bind (new_array init) k).
Proof.
  intros Hk w Hn. unfold bind, new_array.
  destruct (Hk (length (arrays w)) Hn
              {| this := this w; arrays := arrays w ++ [init]; hookCalls := hookCalls w |})
    as [Hlen Hold].
  { cbn. rewrite length_app. lia. }
  cbn in Hlen. rewrite length_app in Hlen. cbn in Hlen.
  split; [lia|]. intros i Hi Hr. rewrite Hold by assumption. cbn.
  apply lookup_app_l. lia.
Qed.

Lemma writes_elsewhere {A} (n r r' : nat) (m : M A) :
  n <= r' -> writes_to n r' m -> writes_to n r m.
Proof.
  intros Hr H w Hn. destruct (H w Hn) as [Hlen Hold]. split; [exact Hlen|].
  intros i Hi _. apply Hold; lia.
Qed.

Lemma writes_push (n r : nat) (xs : list Fragment) : writes_to n r (push r xs).
Proof.
  intros w Hn. split; cbn.
  - rewrite length_alter. lia.
  - intros i Hi Hr. apply list_lookup_alter_ne. congruence.
Qed.

Lemma writes_ret {A} (n r : nat) (a : A) : writes_to n r (ret a).
Proof. intros w Hn. split; [cbn; lia|reflexivity]. Qed.

Lemma writes_throw {A} (n r : nat) (e : exn) : writes_to n r (@throw A e).
Proof. intros w Hn. split; [cbn; lia|reflexivity]. Qed.

Lemma writes_throw_ast {A} (n r : nat) (error : string) (ast : Ast) :
  writes_to n r (@throw_ast ext A error ast).
Proof.
  apply writes_same.
  apply respects_throw_ast; first [exact same_arrays_refl | exact same_arrays_trans | exact same_arrays_argumentTypes].
Qed.

Lemma writes_getType (n r : nat) (ast : Ast) : writes_to n r (getType ext ast).
Proof.
  apply writes_same.
  apply respects_getType; first [exact same_arrays_refl | exact same_arrays_trans | exact same_arrays_argumentTypes].
Qed.

Lemma writes_getDependencies (n r : nat) (ast : Ast) (deps : list Dependency) (flag : bool) :
  writes_to n r (getDependencies ext ast deps flag).
Proof.
  apply writes_same.
  apply respects_getDependencies; first [exact same_arrays_refl | exact same_arrays_trans | exact same_arrays_argumentTypes].
Qed.

Lemma writes_step {A} (n r : nat) (m : M A) :
  (forall w, arrays (snd (m w)) = arrays w) -> writes_to n r m.
Proof. intros H. apply writes_same. exact H. Qed.

Section Walker.

Variable walk : Ast -> nat -> M unit.

Lemma writes_walk_array (n r : nat) (l : list Ast) :
  Forall (walk_writes_to walk) l -> writes_to n r (walk_array walk l r).
Proof.
  induction 1 as [|a l Ha Hl IH]; cbn [walk_array]; [apply writes_ret|].
  apply writes_bind; [apply Ha | intros _; exact IH].
Qed.

Lemma writes_sequence_loop (n r : nat) (expressions turns : list Ast) (first : bool) :
  Forall (walk_writes_to walk) expressions ->
  writes_to n r (sequence_loop walk expressions turns first r).
Proof.
  intros H. revert first. induction turns as [|t turns IH]; intros first; cbn [sequence_loop].
  - apply writes_ret.
  - apply writes_bind;
      [destruct first; [apply writes_ret | apply writes_push]|intros _].
    apply writes_bind; [apply writes_walk_array; exact H | intros _; apply IH].
Qed.

Lemma writes_declared_type (n r : nat) (varDecNode init : Ast) :
  writes_to n r (declared_type ext varDecNode init).
Proof.
  apply writes_same.
  apply respects_declared_type; first [exact same_arrays_refl | exact same_arrays_trans | exact same_arrays_argumentTypes].
Qed.

Lemma writes_later_declarations (n r : nat) (type : jsstr) (l : list Ast) :
  Forall (walk_writes_to walk) l ->
  writes_to n r (later_declarations ext walk type l r).
Proof.
  induction 1 as [|a l Ha Hl IH]; cbn [later_declarations]; [apply writes_ret|].
  apply writes_bind; [apply writes_getDependencies|intros deps].
  apply writes_bind; [destruct (ast_id a); [apply writes_ret|apply writes_throw]|intros id].
  apply writes_bind; [apply writes_step; reflexivity|intros _].
  apply writes_bind; [apply Ha | intros _; exact IH].
Qed.

End Walker.

Lemma writes_astGeneric_deep (ast : Ast) :
  walk_writes_to (astGeneric ext) ast /\
  match ast with
  | VariableDeclarator _ _ (Some init) => walk_writes_to (astGeneric ext) init
  | _ => True
  end.
Proof.
  induction ast; (split; [intros n r|try exact I]); cbn [astGeneric].
  all: try (first [ apply writes_ret | apply writes_push | apply writes_throw_ast ]).
  - unfold astFunctionDeclaration.
    apply writes_bind; [apply writes_step; reflexivity|intros f].
    destruct (onNestedFunction f); [|apply writes_ret].
    apply writes_bind; [apply writes_getType|intros t].
    apply writes_bind; [apply writes_step; reflexivity|intros f'].
    apply writes_step. reflexivity.
  - cbn [astExpressionStatement]. destruct IHast as [IH _].
    apply writes_bind; [apply IH | intros _; apply writes_push].
  - apply list_all_Forall in H.
    match goal with |- context [VariableDeclaration _ ?l] => rename l into declarators end.
    assert (Hwalk : Forall (walk_writes_to (astGeneric ext)) declarators).
    { eapply Forall_impl; [exact H|]. intros a [Ha _]. exact Ha. }
    cbn [astVariableDeclaration].
    destruct declarators as [|d rest]; [apply writes_throw_ast|].
    apply Forall_cons in H as [[_ Hd] _]. apply Forall_cons in Hwalk as [_ Hrest].
    destruct d; try (apply writes_throw_ast).
    + destruct init; [|apply writes_throw_ast].
      apply writes_new_array. intros result Hresult.
      apply writes_bind; [apply writes_declared_type|intros type].
      apply writes_bind; [apply writes_getDependencies|intros deps].
      apply writes_throw.
    + destruct init as [init|]; [|apply writes_throw_ast].
      apply writes_new_array. intros result Hresult.
      apply writes_bind; [apply writes_declared_type|intros type].
      apply writes_bind; [apply writes_getDependencies|intros deps].
      apply writes_bind.
      { destruct (fst deps) as [l| |t]; try (apply writes_throw).
        apply writes_step. reflexivity. }
      intros _.
      apply writes_new_array. intros initResult HinitResult.
      apply writes_bind;
        [apply (writes_elsewhere n r initResult); [exact HinitResult | apply Hd]|intros _].
      apply writes_bind; [apply writes_step; reflexivity|intros text].
      apply writes_bind;
        [apply (writes_elsewhere n r result); [exact Hresult | apply writes_push]|intros _].
      apply writes_bind;
        [apply (writes_elsewhere n r result);
         [exact Hresult | apply writes_later_declarations; exact Hrest]|intros _].
      apply writes_bind; [apply writes_step; reflexivity|intros joined].
      apply writes_bind; [apply writes_push|intros _].
      apply writes_push.
  - cbn [astVariableDeclarator]. destruct IHast as [IH _].
    apply writes_bind; [apply IH|intros _].
    destruct init as [init|]; [|apply writes_ret].
    apply option_all_Some in H. destruct H as [Hinit _].
    apply writes_bind; [apply writes_push|intros _]. apply Hinit.
  - destruct init as [init|]; [|exact I].
    apply option_all_Some in H. apply H.
  - cbn [astSequenceExpression]. apply writes_sequence_loop.
    apply list_all_Forall in H. eapply Forall_impl; [exact H|]. intros a [Ha _]. exact Ha.
  - cbn [astUnaryExpression]. destruct IHast as [IH _].
    destruct prefix0; (apply writes_bind; [|intros _]);
      first [ apply IH | apply writes_push ].
  - cbn [astUpdateExpression]. destruct IHast as [IH _].
    destruct prefix0; (apply writes_bind; [|intros _]);
      first [ apply IH | apply writes_push ].
  - cbn [astLogicalExpression]. destruct IHast1 as [IH1 _], IHast2 as [IH2 _].
    repeat (apply writes_bind; [|intros _]);
      first [ apply IH1 | apply IH2 | apply writes_push ].
  - cbn [astConditionalExpression].
    destruct IHast1 as [IH1 _], IHast2 as [IH2 _], IHast3 as [IH3 _].
    repeat (apply writes_bind; [|intros _]);
      first [ apply IH1 | apply IH2 | apply IH3 | apply writes_push ].
Qed.

(** A walk writes to the array it is given and to arrays it makes
    itself: every other array that was there before is afterwards what it
    was, also when the walk throws. *)
Theorem walker_writes_own_array (ast : Ast) (retArr : nat) (w : World) (i : nat) :
  i < length (arrays w) -> i <> retArr ->
  arrays (snd (astGeneric ext ast retArr w)) !! i = arrays w !! i.
Proof.
  intros Hi Hr.
  destruct (proj1 (writes_astGeneric_deep ast) (length (arrays w)) retArr w) as [_ H];
    [lia|].
  apply H; assumption.
Qed.

End OwnArray.

Lemma walker_writes_own_array_witness :
  arrays (snd (astGeneric Sample.ext Sample.var_a 0 Sample2.two_arrays)) !! 1
  = arrays Sample2.two_arrays !! 1.
Proof.
  apply (walker_writes_own_array Sample.ext Sample.var_a 0 Sample2.two_arrays 1).
  - cbn. lia.
  - discriminate.
Defined.

(** ** Descriptors of indexed variables and constants *)



Section Decomposed.

Variable ext : Externals.

(** The descriptor of an indexed variable [n[i1]...[ik]], for one to
    three indices: the name is [n], the origin ['user'], the type what
    [getVariableType] answers for [n] (not looked up in [typeLookupMap],
    as [getType] does), and the indices are counted from the last:
    [xProperty] is the last index, [yProperty] the one before it,
    [zProperty] the one before that.  The world changes as
    [getVariableType] changes it. *)
Theorem getMemberExpressionDetails_indexed
    (s : nat) (n : string) (indices : list (nat * Ast)) (w : World) :
  n <> EmptyString ->
  1 <= length indices <= 3 ->
  getMemberExpressionDetails ext (index_chain (Identifier s n) indices) w
  = (match fst (getVariableType (JStr n) w) with
     | Ok type => Ok (Some (indexed_details n indices type))
     | Throw e => Throw e
     end, snd (getVariableType (JStr n) w)).
Proof.
  intros Hn Hlen.
  pose proof (index_chain_signature s n indices w Hn) as Hsig.
  destruct indices as [|[s1 i1] [|[s2 i2] [|[s3 i3] [|i4 more]]]];
    cbn [length] in Hlen; try lia; clear Hlen;
    cbn [index_chain fold_left fst snd] in *; cbn [length] in Hsig;
    unfold getMemberExpressionDetails; cbn [ast_type];
    rewrite (bool_decide_eq_true_2 ("MemberExpression" = "MemberExpression")) by reflexivity;
    cbn [negb]; unfold bind at 1; rewrite Hsig; cbv zeta;
    repeat first [ rewrite bool_decide_eq_true_2 by reflexivity
                 | rewrite bool_decide_eq_false_2 by discriminate ];
    cbn [orb]; cbv beta iota;
    unfold object_of, user_details;
    cbn [ast_object ast_property ast_name field is_string negb];
    repeat (progress (cbn [ast_object ast_property ast_name field is_string negb];
                      unfold bind, ret; cbv beta iota));
    destruct (getVariableType (JStr n) w) as [[t|e] w']; reflexivity.
Qed.

(** With four or more indices neither the type oracle nor the
    decomposer has an answer: both throw what the error reporter makes
    of the node, and change nothing. *)
Theorem index_chain_too_deep
    (s : nat) (n : string) (indices : list (nat * Ast)) (w : World) :
  n <> EmptyString ->
  4 <= length indices ->
  let ast := index_chain (Identifier s n) indices in
  getType ext ast w
  = (Throw (astErrorOutput ext "Unhandled getType MemberExpression" ast (this w)), w) /\
  getMemberExpressionDetails ext ast w
  = (Throw (astErrorOutput ext "Unexpected expression" ast (this w)), w).
Proof.
  intros Hn Hlen ast.
  pose proof (index_chain_signature s n indices w Hn) as Hsig.
  fold ast in Hsig.
  destruct (index_chain_not_identifier (Identifier s n) indices) as (s' & o & p & E).
  { intros ->. cbn in Hlen. lia. }
  fold ast in E.
  destruct indices as [|i1 [|i2 [|i3 [|i4 more]]]]; cbn [length] in Hlen; try lia.
  cbn [length] in Hsig. clear Hlen. clearbody ast. subst ast.
  split.
  - cbn [getType isAstMathFunction isAstVariable ast_type].
    unfold bind at 1. rewrite Hsig. cbv zeta.
    repeat rewrite bool_decide_eq_false_2 by discriminate.
    reflexivity.
  - unfold getMemberExpressionDetails. cbn [ast_type].
    rewrite (bool_decide_eq_true_2 ("MemberExpression" = "MemberExpression")) by reflexivity.
    cbn [negb]. unfold bind at 1. rewrite Hsig. cbv zeta.
    repeat rewrite bool_decide_eq_false_2 by discriminate.
    reflexivity.
Qed.



End Decomposed.

Lemma getMemberExpressionDetails_indexed_witness :
  getMemberExpressionDetails Sample.ext
    (index_chain (Identifier 0 "a") [(0, Sample.number 7); (0, Sample.number 8)])
    Sample2.typed_world
  = (match fst (getVariableType (JStr "a") Sample2.typed_world) with
     | Ok type =>
         Ok (Some (indexed_details "a" [(0, Sample.number 7); (0, Sample.number 8)] type))
     | Throw e => Throw e
     end, snd (getVariableType (JStr "a") Sample2.typed_world)).
Proof.
  apply (getMemberExpressionDetails_indexed Sample.ext 0 "a"
           [(0, Sample.number 7); (0, Sample.number 8)] Sample2.typed_world).
  - discriminate.
  - cbn. lia.
Defined.

Lemma index_chain_too_deep_witness :
  let ast :=
    index_chain (Identifier 0 "a")
      [(0, Sample.number 0); (0, Sample.number 1); (0, Sample.number 2);
       (0, Sample.number 3)] in
  getType Sample.ext ast Sample2.typed_world
  = (Throw (astErrorOutput Sample.ext "Unhandled getType MemberExpression" ast
              (this Sample2.typed_world)), Sample2.typed_world) /\
  getMemberExpressionDetails Sample.ext ast Sample2.typed_world
  = (Throw (astErrorOutput Sample.ext "Unexpected expression" ast
              (this Sample2.typed_world)), Sample2.typed_world).
Proof.
  apply (index_chain_too_deep Sample.ext 0 "a"
           [(0, Sample.number 0); (0, Sample.number 1); (0, Sample.number 2);
            (0, Sample.number 3)] Sample2.typed_world).
  - discriminate.
  - cbn. lia.
Defined.


